(** * Guest query limit and authentication gating of the Nyayantar client

    A shallow embedding of the client-side logic of the repository:
    - the [useQueryLimit] hook (imported as [@/hooks/useQueryLimit]; its
      text is the second document of [src/frontend/frontend-test.js]),
      its provider ([src/frontend/app/QueryLimitContext.tsx]) and the
      chat page ([src/frontend/app/chat/page.tsx]);
    - the authentication provider (imported as [@/app/authProvider]; its
      text is the second document of
      [src/frontend/app/admin/document-management/page.tsx]) with its
      token refresh, its axios request interceptor, and the role lookup
      of [checkAuthStatus] and [login];
    - what the pages do through the provider: the requests of the chat
      page ([fetchMessages], [fetchConversations], [handleNewChat]), its
      [updateMessageContent], the [QueryCounter] shown to a guest
      ([src/unnamed/part_002]) and [fetchData] of the document dashboard.

    JavaScript values are modelled as the code uses them: the counter is
    a JS number (an IEEE double holding an integer, with signed zero,
    infinities and NaN), the expiry claim of a token and the clock in
    seconds are IEEE doubles, local storage and the cookie jar are finite maps
    from strings to strings, React state is an explicit record and every
    effect of a render is run where React runs it.  Console output is
    not modelled. *)

From Stdlib Require Import ZArith QArith Bool List Ascii String Lia.
From Stdlib Require Import SpecFloat.
From stdpp Require Import base decidable option list gmap strings pretty.
Import ListNotations.
Local Open Scope string_scope.
Local Open Scope list_scope.
Local Open Scope Z_scope.

(** ** JavaScript numbers and the built-ins the hook calls *)

Module Js.

(** The Number values the counter can hold: NaN, the two infinities,
    negative zero, and the integers that are doubles.  [Int 0] is +0. *)
Inductive number : Type :=
| NaN
| NegInf
| NegZero
| Int (z : Z)
| PosInf.

#[global] Instance number_eq_dec : EqDecision number.
Proof. solve_decision. Defined.

(** [Object.is]: the comparison React uses for a state update and for
    the dependencies of an effect.  NaN is NaN; +0 is not -0. *)
Definition Object_is (a b : number) : bool := bool_decide (a = b).

(** Rounding of a mathematical integer to the nearest double, ties to
    even, overflow to infinity.  Integers below 2^53 in magnitude are
    exact. *)
Definition F (z : Z) : number :=
  let a := Z.abs z in
  let e := Z.log2 a in
  if e <? 53 then Int z
  else
    let k := e - 52 in
    let q := Z.shiftr a k in
    let r := a - Z.shiftl q k in
    let half := Z.shiftl 1 (k - 1) in
    let q' := if (half <? r) || ((r =? half) && Z.odd q) then q + 1 else q in
    let m := Z.shiftl q' k in
    if Z.shiftl 1 1024 <=? m
    then (if z <? 0 then NegInf else PosInf)
    else Int (Z.sgn z * m).

Definition neg (a : number) : number :=
  match a with
  | NaN => NaN
  | NegInf => PosInf
  | NegZero => Int 0
  | Int 0 => NegZero
  | Int z => Int (- z)
  | PosInf => NegInf
  end.

(** [a + b] *)
Definition add (a b : number) : number :=
  match a, b with
  | NaN, _ | _, NaN => NaN
  | PosInf, NegInf | NegInf, PosInf => NaN
  | PosInf, _ | _, PosInf => PosInf
  | NegInf, _ | _, NegInf => NegInf
  | NegZero, x => x
  | x, NegZero => x
  | Int x, Int y => F (x + y)
  end.

(** [a - b] *)
Definition sub (a b : number) : number := add a (neg b).

(** [a < b]; a comparison with NaN is false, and -0 equals +0. *)
Definition lt (a b : number) : bool :=
  match a, b with
  | NaN, _ | _, NaN => false
  | _, NegInf => false
  | NegInf, _ => true
  | PosInf, _ => false
  | _, PosInf => true
  | NegZero, NegZero => false
  | NegZero, Int y => 0 <? y
  | Int x, NegZero => x <? 0
  | Int x, Int y => x <? y
  end.

(** [a >= b] *)
Definition ge (a b : number) : bool :=
  match a, b with
  | NaN, _ | _, NaN => false
  | _, _ => negb (lt a b)
  end.

Definition isNaN (a : number) : bool :=
  match a with NaN => true | _ => false end.

(** [Math.max(a, b)]: NaN if either is, and +0 is larger than -0. *)
Definition Math_max (a b : number) : number :=
  match a, b with
  | NaN, _ | _, NaN => NaN
  | NegZero, Int 0 => Int 0
  | Int 0, NegZero => Int 0
  | _, _ => if lt a b then b else a
  end.

(** *** [parseInt(s, 10)] *)

(** Strings are sequences of 8-bit code units; these are the white
    space and line terminator characters among them. *)
Definition is_white (c : ascii) : bool :=
  let n := nat_of_ascii c in
  (n =? 9)%nat || (n =? 10)%nat || (n =? 11)%nat || (n =? 12)%nat
  || (n =? 13)%nat || (n =? 32)%nat || (n =? 160)%nat.

Definition digit_val (c : ascii) : option Z :=
  let n := Z.of_nat (nat_of_ascii c) in
  if (48 <=? n) && (n <=? 57) then Some (n - 48) else None.

Fixpoint trim_start (s : string) : string :=
  match s with
  | String c s' => if is_white c then trim_start s' else s
  | EmptyString => s
  end.

(** The value of the longest prefix of decimal digits, [None] when that
    prefix is empty. *)
Fixpoint digits_prefix (acc : option Z) (s : string) : option Z :=
  match s with
  | String c s' =>
      match digit_val c with
      | Some d => digits_prefix (Some (10 * default 0 acc + d)) s'
      | None => acc
      end
  | EmptyString => acc
  end.

Definition parseInt (input : string) : number :=
  let s := trim_start input in
  let '(negative, s) :=
    match s with
    | String "-" s' => (true, s')
    | String "+" s' => (false, s')
    | _ => (false, s)
    end in
  match digits_prefix None s with
  | None => NaN
  | Some 0 => if negative then NegZero else Int 0
  | Some m => F (if negative then - m else m)
  end.

(** *** [Number.prototype.toString()] *)

(** The decimal integer with the fewest significant digits that rounds
    to the double [z] (the closest to [z] among those; [z > 0]).  The
    search runs over the number [k] of significant digits kept. *)
Fixpoint shortest (fuel : nat) (k n z : Z) : Z :=
  match fuel with
  | O => z
  | S fuel' =>
      let p := 10 ^ (n - k) in
      let lo := (z / p) * p in
      let hi := lo + p in
      let ok_lo := Object_is (F lo) (Int z) in
      let ok_hi := Object_is (F hi) (Int z) in
      match ok_lo, ok_hi with
      | true, true =>
          if z - lo <? hi - z then lo
          else if hi - z <? z - lo then hi
          else if Z.even (z / p) then lo else hi
      | true, false => lo
      | false, true => hi
      | false, false => shortest fuel' (k + 1) n z
      end
  end.

Fixpoint strip_zeros (rev_digits : list ascii) : list ascii :=
  match rev_digits with
  | "0"%char :: l => strip_zeros l
  | _ => rev_digits
  end.

Definition string_of_list (l : list ascii) : string :=
  fold_right String EmptyString l.

Definition positive_toString (z : Z) : string :=
  let n := Z.of_nat (String.length (pretty z)) in
  let v := shortest (Z.to_nat n) 1 n z in
  if v <? 10 ^ 21 then pretty v
  else
    let ds := pretty v in
    let e := Z.of_nat (String.length ds) - 1 in
    match rev (strip_zeros (rev (list_ascii_of_string ds))) with
    | [] => ds
    | [d] => String d ("e+" +:+ pretty e)
    | d :: rest => String d ("." +:+ string_of_list rest +:+ "e+" +:+ pretty e)
    end.

Definition toString (a : number) : string :=
  match a with
  | NaN => "NaN"
  | NegInf => "-Infinity"
  | NegZero => "0"
  | Int z =>
      if z =? 0 then "0"
      else if z <? 0 then "-" +:+ positive_toString (- z)
      else positive_toString z
  | PosInf => "Infinity"
  end.

End Js.

(** ** JavaScript numbers with a fraction *)

(** The expiry test of the interceptor divides and compares Numbers
    that need not be integers.  They are IEEE 754 binary64 values, taken
    here from the specification of floating-point numbers of the
    Standard Library ([SpecFloat], with a mantissa of 53 bits): a double
    is a [spec_float] that is [valid_binary prec emax]. *)
Module Double.

Definition prec : Z := 53.
Definition emax : Z := 1024.

Definition double : Type := spec_float.

(** A mathematical integer as a Number: the nearest double, ties to
    even. *)
Definition of_Z (z : Z) : double := binary_normalize prec emax z 0 false.

(** [a / b] *)
Definition div (a b : double) : double := SFdiv prec emax a b.

(** [a < b]; false when either is NaN. *)
Definition lt (a b : double) : bool := SFltb a b.

(** Truthiness of a Number: +0, -0 and NaN are falsy. *)
Definition truthy (a : double) : bool :=
  match a with
  | S754_zero _ | S754_nan => false
  | _ => true
  end.

(** The rational a finite double stands for. *)
Definition to_Q (a : double) : option Q :=
  match a with
  | S754_zero _ => Some 0%Q
  | S754_finite s m e =>
      let v := if 0 <=? e then inject_Z (Z.pos m * 2 ^ e)
               else (Z.pos m # Pos.pow 2 (Z.to_pos (- e)))%Q in
      Some (if s then Qopp v else v)
  | _ => None
  end.

End Double.

(** ** Local storage *)

Module LocalStorage.

(** The browser refuses storage access altogether ([Denied]: every call
    throws) or only new writes ([QuotaExceeded]: [setItem] throws). *)
Inductive Mode : Type := Working | QuotaExceeded | Denied.

Record Storage : Type := mkStorage {
  items : gmap string string;
  mode : Mode
}.

(** The result of a call that may throw. *)
Inductive result (A : Type) : Type :=
| Ok (a : A)
| Throw.
Arguments Ok {A} a.
Arguments Throw {A}.

Definition getItem (st : Storage) (key : string) : result (option string) :=
  match mode st with
  | Denied => Throw
  | _ => Ok (items st !! key)
  end.

Definition setItem (st : Storage) (key value : string) : result Storage :=
  match mode st with
  | Working => Ok (mkStorage (<[key := value]> (items st)) (mode st))
  | _ => Throw
  end.

Definition removeItem (st : Storage) (key : string) : result Storage :=
  match mode st with
  | Denied => Throw
  | _ => Ok (mkStorage (delete key (items st)) (mode st))
  end.

End LocalStorage.

(** ** The [useQueryLimit] hook *)

Module QueryLimit.
Import LocalStorage.

Definition QUERY_LIMIT : Js.number := Js.Int 20.
Definition STORAGE_KEY : string := "nyayantar_query_count".

(** A mounted hook: its one state variable, and the local storage its
    effects act on. *)
Record Hook : Type := mkHook {
  queryCount : Js.number;
  localStorage : Storage
}.

(** A string is truthy when it is not empty. *)
Definition truthy (s : string) : bool :=
  match s with EmptyString => false | _ => true end.

(** The first effect (dependencies [[]], so it runs once, after the
    first render): the argument of the [setQueryCount] call it makes, if
    it makes one.  A throw is caught and logged. *)
Definition init_effect (st : Storage) : option Js.number :=
  match getItem st STORAGE_KEY with
  | Ok (Some stored) =>
      if truthy stored then
        let count := Js.parseInt stored in
        if negb (Js.isNaN count) && Js.ge count (Js.Int 0)
        then Some count
        else None
      else None
  | Ok None => None
  | Throw => None
  end.

(** The second effect (dependencies [[queryCount]]): it runs after the
    first render and after every render in which [queryCount] differs
    from the previous one.  A throw is caught and logged. *)
Definition persist_effect (queryCount : Js.number) (st : Storage) : Storage :=
  match setItem st STORAGE_KEY (Js.toString queryCount) with
  | Ok st' => st'
  | Throw => st
  end.

(** What React does with [setQueryCount(next)]: when [next] is the
    current state by [Object.is] nothing is rendered and no effect runs;
    otherwise the hook renders with [next] and the effects that depend on
    [queryCount] run. *)
Definition commit (prev next : Js.number) (st : Storage) : Hook :=
  if Js.Object_is prev next
  then mkHook prev st
  else mkHook next (persist_effect next st).

(** Mounting: the first render has [queryCount = 0]; its two effects run
    in the order they are written, then the update the first one asked
    for is committed. *)
Definition mount (st : Storage) : Hook :=
  let pending := init_effect st in
  let st1 := persist_effect (Js.Int 0) st in
  match pending with
  | Some count => commit (Js.Int 0) count st1
  | None => mkHook (Js.Int 0) st1
  end.

Definition incrementCount (h : Hook) : Hook :=
  commit (queryCount h) (Js.add (queryCount h) (Js.Int 1)) (localStorage h).

(** [setQueryCount(0)] is queued, [removeItem] runs at once (a throw is
    caught and logged), and the render that follows comes last. *)
Definition resetCount (h : Hook) : Hook :=
  let st1 :=
    match removeItem (localStorage h) STORAGE_KEY with
    | Ok st' => st'
    | Throw => localStorage h
    end in
  commit (queryCount h) (Js.Int 0) st1.

Definition remainingQueries (h : Hook) : Js.number :=
  Js.Math_max (Js.Int 0) (Js.sub QUERY_LIMIT (queryCount h)).

Definition hasExceededLimit (h : Hook) : bool :=
  Js.ge (queryCount h) QUERY_LIMIT.

Definition canMakeQuery (h : Hook) : bool :=
  Js.lt (queryCount h) QUERY_LIMIT.

(** The data of the object the hook returns (the two callbacks are
    [incrementCount] and [resetCount] above). *)
Record QueryLimitState : Type := mkState {
  state_queryCount : Js.number;
  state_remainingQueries : Js.number;
  state_hasExceededLimit : bool;
  state_canMakeQuery : bool
}.

Definition useQueryLimit (h : Hook) : QueryLimitState :=
  {| state_queryCount := queryCount h;
     state_remainingQueries := remainingQueries h;
     state_hasExceededLimit := hasExceededLimit h;
     state_canMakeQuery := canMakeQuery h |}.

(** A fresh counter: the hook mounted on a store with no entry. *)
Definition fresh (m : Mode) : Hook := mount (mkStorage ∅ m).

(** The two operations the hook hands out, and a run of them. *)
Inductive Op : Type := Increment | Reset.

Definition apply_op (h : Hook) (op : Op) : Hook :=
  match op with
  | Increment => incrementCount h
  | Reset => resetCount h
  end.

Definition run_ops (h : Hook) (ops : list Op) : Hook :=
  fold_left apply_op ops h.

End QueryLimit.

(** ** The query-limit provider and the chat page *)

Module Chat.
Import QueryLimit.

(** The calls the provider and the page make on their collaborators, in
    the order they are made. *)
Inductive Call : Type :=
| PreventDefault                (* e.preventDefault() *)
| HandleSubmit                  (* useChat's handleSubmit: the chat transport *)
| IncrementCount                (* queryLimitContext.incrementCount() *)
| ResetCount                    (* queryLimit.resetCount() *)
| Alert (message : string)
| RouterPush (path : string)
| Toast (message : string)
| Rethrow.                      (* onError throws its argument again *)

#[global] Instance Call_eq_dec : EqDecision Call.
Proof. solve_decision. Defined.

(** What the page holds: the authentication flag of [useAuth], the
    hook behind [useQueryLimitContext], and its own dialog flag. *)
Record Page : Type := mkPage {
  isAuthenticated : bool;
  queryLimitContext : Hook;
  showSignupDialog : bool
}.

Definition isGuestUser (p : Page) : bool := negb (isAuthenticated p).

(** *** [QueryLimitProvider] *)

(** The body of the provider's effect. *)
Definition reset_effect (p : Page) : Page * list Call :=
  if isAuthenticated p
  then (mkPage (isAuthenticated p) (resetCount (queryLimitContext p))
               (showSignupDialog p), [ResetCount])
  else (p, []).

(** The authentication provider publishes a value of [isAuthenticated];
    the effect has dependencies [[isAuthenticated]], so it runs when the
    value differs from the one of the previous render. *)
Definition auth_changed (next : bool) (p : Page) : Page * list Call :=
  let p' := mkPage next (queryLimitContext p) (showSignupDialog p) in
  if Bool.eqb (isAuthenticated p) next then (p', []) else reset_effect p'.

(** *** [ChatContent] *)

(** The argument of [onError].  [parsed] is [JSON.parse(error.message)]
    read at the four fields the handler looks at, [None] when parsing
    throws. *)
Record ErrorResponse : Type := mkErrorResponse {
  detail : option string;
  errors : option (list string);
  message : option string;
  error : option string
}.

Inductive ChatError : Type :=
| NotAnError
| Error (error_message : string) (parsed : option ErrorResponse).

Definition truthy_field (o : option string) : option string :=
  match o with
  | Some s => if truthy s then Some s else None
  | None => None
  end.

Definition onFinish (p : Page) : Page * list Call :=
  if negb (isAuthenticated p)
  then (mkPage (isAuthenticated p) (incrementCount (queryLimitContext p))
               (showSignupDialog p), [IncrementCount])
  else (p, []).

Definition onError (e : ChatError) (p : Page) : Page * list Call :=
  match e with
  | NotAnError => (p, [Rethrow])
  | Error error_message parsed =>
      match parsed with
      | Some errorResponse =>
          if bool_decide (detail errorResponse = Some "Not authenticated")
          then (p, [Alert "Session has expired. Please login again.";
                    RouterPush "/signin"])
          else
            let errorMessage :=
              match truthy_field (detail errorResponse) with
              | Some d => "Error: " +:+ d
              | None =>
              match errors errorResponse with
              | Some l => "Validation Errors: " +:+ String.concat ", " l
              | None =>
              match truthy_field (message errorResponse) with
              | Some m => "Message: " +:+ m
              | None =>
              match truthy_field (error errorResponse) with
              | Some m => "Error: " +:+ m
              | None => "Unknown error format: " +:+ error_message
              end end end end in
            (p, [Toast errorMessage])
      | None => (p, [Toast ("Error parsing response: " +:+ error_message)])
      end
  end.

Definition handleChatSubmit (p : Page) : Page * list Call :=
  if negb (isAuthenticated p) && negb (canMakeQuery (queryLimitContext p))
  then (mkPage (isAuthenticated p) (queryLimitContext p) true,
        [PreventDefault])
  else (p, [PreventDefault; HandleSubmit]).

(** The setter of the dialog flag, which the page hands to the dialog
    as [onOpenChange]. *)
Definition setShowSignupDialog (next : bool) (p : Page) : Page * list Call :=
  (mkPage (isAuthenticated p) (queryLimitContext p) next, []).

(** The properties the page passes to [SignupPromptDialog]. *)
Record SignupPromptDialogProps : Type := mkProps {
  open : bool;
  dialog_queryCount : Js.number
}.

Definition SignupPromptDialog (p : Page) : SignupPromptDialogProps :=
  {| open := showSignupDialog p;
     dialog_queryCount := queryCount (queryLimitContext p) |}.

(** *** Events *)

(** What reaches the page: a form submission, what [useChat] reports of
    an exchange, a change of the published authentication flag, and the
    dialog asking to be opened or closed ([onOpenChange]).  A chunk of
    the streamed answer is consumed inside [useChat]; the page registers
    no callback for it. *)
Inductive Event : Type :=
| Submit
| StreamChunk (text : string)
| StreamFinish
| StreamError (e : ChatError)
| AuthChanged (next : bool)
| DialogOpenChange (next : bool).

Definition step (p : Page) (ev : Event) : Page * list Call :=
  match ev with
  | Submit => handleChatSubmit p
  | StreamChunk _ => (p, [])
  | StreamFinish => onFinish p
  | StreamError e => onError e p
  | AuthChanged next => auth_changed next p
  | DialogOpenChange next => setShowSignupDialog next p
  end.

Fixpoint run (p : Page) (evs : list Event) : Page * list Call :=
  match evs with
  | [] => (p, [])
  | ev :: evs' =>
      let '(p1, c1) := step p ev in
      let '(p2, c2) := run p1 evs' in
      (p2, c1 ++ c2)
  end.

(** One exchange as [useChat] reports it: the chunks of the answer as
    they stream in, then either the end of the stream or an error. *)
Inductive Outcome : Type :=
| Completed
| Failed (e : ChatError).

Definition exchange (chunks : list string) (o : Outcome) : list Event :=
  map StreamChunk chunks ++
  [match o with Completed => StreamFinish | Failed e => StreamError e end].

Definition chat_event (ev : Event) : bool :=
  match ev with AuthChanged _ => false | _ => true end.

Definition calls_of (c : Call) (l : list Call) : nat :=
  length (filter (λ x, x = c) l).

End Chat.

(** ** The authentication provider *)

Module Auth.

(** The state variables of [AuthProvider]; [None] is [null]. *)
Record Session : Type := mkSession {
  isAuthenticated : bool;
  email : option string;
  firstName : option string;
  lastName : option string;
  role : option string;
  isAdmin : bool;
  accessToken : option string;
  refreshToken : option string
}.

(** A request configuration as the interceptor sees it. *)
Record Config : Type := mkConfig {
  url : string;
  headers : gmap string string
}.

#[global] Instance Config_eq_dec : EqDecision Config.
Proof. solve_decision. Defined.

(** What leaves the provider, in order. *)
Inductive Effect : Type :=
| PostRefresh (refresh_token : string)  (* POST /api/auth/refresh *)
| GetMe (bearer : string)               (* GET /api/auth/me *)
| RouterPush (path : string)
| Dispatch (config : Config).           (* axios sends the request *)

#[global] Instance Effect_eq_dec : EqDecision Effect.
Proof. solve_decision. Defined.

Record World : Type := mkWorld {
  session : Session;
  cookies : gmap string string;
  trace : list Effect
}.

Inductive Exn : Type :=
| Cancel (message : string)   (* new axios.Cancel(message) *)
| InvalidTokenError           (* thrown by jwtDecode *)
| RequestFailed.              (* a rejected axios call *)

Inductive outcome (A : Type) : Type :=
| Return (a : A)
| Raise (e : Exn).
Arguments Return {A} a.
Arguments Raise {A} e.

(** Computations on the world that may throw. *)
Definition M (A : Type) : Type := World → outcome A * World.

#[global] Instance M_ret : MRet M := λ A a w, (Return a, w).
#[global] Instance M_bind : MBind M := λ A B f m w,
  match m w with
  | (Return a, w') => f a w'
  | (Raise e, w') => (Raise e, w')
  end.

Definition throw {A : Type} (e : Exn) : M A := λ w, (Raise e, w).

Definition try_catch {A : Type} (m : M A) (handler : Exn → M A) : M A :=
  λ w,
  match m w with
  | (Return a, w') => (Return a, w')
  | (Raise e, w') => handler e w'
  end.

Definition emit (e : Effect) : M unit :=
  λ w, (Return (), mkWorld (session w) (cookies w) (trace w ++ [e])).

Definition set_state (f : Session → Session) : M unit :=
  λ w, (Return (), mkWorld (f (session w)) (cookies w) (trace w)).

Definition setIsAuthenticated (v : bool) : M unit :=
  set_state (λ s, mkSession v (email s) (firstName s) (lastName s) (role s)
                            (isAdmin s) (accessToken s) (refreshToken s)).
Definition setEmail (v : option string) : M unit :=
  set_state (λ s, mkSession (isAuthenticated s) v (firstName s) (lastName s)
                            (role s) (isAdmin s) (accessToken s) (refreshToken s)).
Definition setFirstName (v : option string) : M unit :=
  set_state (λ s, mkSession (isAuthenticated s) (email s) v (lastName s)
                            (role s) (isAdmin s) (accessToken s) (refreshToken s)).
Definition setLastName (v : option string) : M unit :=
  set_state (λ s, mkSession (isAuthenticated s) (email s) (firstName s) v
                            (role s) (isAdmin s) (accessToken s) (refreshToken s)).
Definition setRole (v : option string) : M unit :=
  set_state (λ s, mkSession (isAuthenticated s) (email s) (firstName s)
                            (lastName s) v (isAdmin s) (accessToken s)
                            (refreshToken s)).
Definition setIsAdmin (v : bool) : M unit :=
  set_state (λ s, mkSession (isAuthenticated s) (email s) (firstName s)
                            (lastName s) (role s) v (accessToken s)
                            (refreshToken s)).
Definition setAccessToken (v : option string) : M unit :=
  set_state (λ s, mkSession (isAuthenticated s) (email s) (firstName s)
                            (lastName s) (role s) (isAdmin s) v
                            (refreshToken s)).
Definition setRefreshToken (v : option string) : M unit :=
  set_state (λ s, mkSession (isAuthenticated s) (email s) (firstName s)
                            (lastName s) (role s) (isAdmin s)
                            (accessToken s) v).

(** The cookie jar of [js-cookie].  An [undefined] value is written as
    the string "undefined".  The seven days of [expires] do not pass
    inside one call. *)
Definition Cookies_set (name : string) (value : option string) : M unit :=
  λ w, (Return (),
        mkWorld (session w) (<[name := default "undefined" value]> (cookies w))
                (trace w)).
Definition Cookies_get (name : string) : M (option string) :=
  λ w, (Return (cookies w !! name), w).
Definition Cookies_remove (name : string) : M unit :=
  λ w, (Return (), mkWorld (session w) (delete name (cookies w)) (trace w)).

Definition router_push (path : string) : M unit := emit (RouterPush path).

(** A value is truthy when it is a non-empty string. *)
Definition truthy (v : option string) : option string :=
  match v with
  | Some s => if QueryLimit.truthy s then Some s else None
  | None => None
  end.

Definition authRoutes : list string :=
  ["/signin"; "/signup"; "/resetPassword"; "/verifiedEmail"].
Definition protectedRoutes : list string := ["/chat"; "/profile"].

Definition includes (l : list string) (x : string) : bool :=
  bool_decide (x ∈ l).

(** *** What the provider does not own *)

(** The answer of the server to one call. *)
Inductive Reply (A : Type) : Type :=
| Ok (data : A)
| HttpError (status : Z)      (* error.response.status *)
| NetworkError.               (* no error.response *)
Arguments Ok {A} data.
Arguments HttpError {A} status.
Arguments NetworkError {A}.

Record RefreshData : Type := mkRefreshData {
  access_token : option string;
  refresh_token : option string
}.

Record MeData : Type := mkMeData { me_role : option string }.

(** The claims of a decoded token; [exp] is a Number of seconds, [None]
    when the payload has no such claim. *)
Record JwtPayload : Type := mkJwtPayload { exp : option Double.double }.

(** The clock ([Date.now()], in milliseconds), the decoder of
    [jwt-decode] ([None] when it throws), the two endpoints of the server
    and the current path. *)
Record Env : Type := mkEnv {
  Date_now : Z;
  jwtDecode : string → option JwtPayload;
  refresh_endpoint : string → Reply RefreshData;
  me_endpoint : string → Reply MeData;
  pathname : string
}.

(** [error.response?.status === 401 || error.response?.status === 403] *)
Definition unauthorized {A : Type} (r : Reply A) : bool :=
  match r with
  | HttpError status => (status =? 401) || (status =? 403)
  | _ => false
  end.

(** [const currentTime = Date.now() / 1000]: a division of doubles,
    rounded to the nearest double. *)
Definition currentTime (env : Env) : Double.double :=
  Double.div (Double.of_Z (Date_now env)) (Double.of_Z 1000).

(** [decodedToken.exp && decodedToken.exp < currentTime], a comparison
    of doubles. *)
Definition expired (decodedToken : JwtPayload) (currentTime : Double.double)
  : bool :=
  match exp decodedToken with
  | Some e => Double.truthy e && Double.lt e currentTime
  | None => false
  end.

Section Provider.

Variable env : Env.

(** The functions below are closures of one render: [render] holds the
    values of the state variables in that render, which a [set...] call
    does not change. *)

Definition logout : M unit :=
  Cookies_remove "accessToken";;
  Cookies_remove "refreshToken";;
  Cookies_remove "email";;
  Cookies_remove "firstName";;
  Cookies_remove "lastName";;
  setIsAuthenticated false;;
  setAccessToken None;;
  setRefreshToken None;;
  setEmail None;;
  setFirstName None;;
  setLastName None;;
  setRole None;;
  setIsAdmin false;;
  router_push "/signin".

Definition clearAuthAndRedirect : M unit := logout.

Definition refreshAccessToken (render : Session) : M (option string) :=
  match truthy (refreshToken render) with
  | None => mret None
  | Some rt =>
      emit (PostRefresh rt);;
      match refresh_endpoint env rt with
      | Ok data =>
          setAccessToken (access_token data);;
          setRefreshToken (refresh_token data);;
          Cookies_set "accessToken" (access_token data);;
          Cookies_set "refreshToken" (refresh_token data);;
          mret (access_token data)
      | r =>
          (if unauthorized r then logout else mret ());;
          mret None
      end
  end.

Definition set_header (config : Config) (name value : string) : Config :=
  mkConfig (url config) (<[name := value]> (headers config)).

Definition requestInterceptor (render : Session) (config : Config)
  : M Config :=
  match truthy (accessToken render) with
  | Some token =>
      try_catch
        (decodedToken ←
           match jwtDecode env token with
           | Some payload => mret payload
           | None => throw InvalidTokenError
           end;
         if expired decodedToken (currentTime env) then
           newAccessToken ← refreshAccessToken render;
           match truthy newAccessToken with
           | Some t =>
               mret (set_header config "Authorization" ("Bearer " +:+ t))
           | None =>
               logout;;
               throw (Cancel "Session expired. Please log in again.")
           end
         else
           mret (set_header config "Authorization" ("Bearer " +:+ token)))
        (λ _,
           logout;;
           throw (Cancel "Invalid token. Please log in again."))
  | None => mret config
  end.

(** A request made through [axiosInstance]: the interceptor runs, and
    axios sends the configuration it returns; when the interceptor
    throws, nothing is sent. *)
Definition request (render : Session) (config : Config) : M unit :=
  config' ← requestInterceptor render config;
  emit (Dispatch config').

(** [GET /api/auth/me] through an axios instance made for the call. *)
Definition get_me (bearer : string) : M (Reply MeData) :=
  emit (GetMe bearer);;
  mret (me_endpoint env bearer).

(** [const userRole = response.data.role || 'user'; setRole(userRole);
    setIsAdmin(userRole === 'admin')] *)
Definition set_role_of (data : MeData) : M unit :=
  let userRole := default "user" (truthy (me_role data)) in
  setRole (Some userRole);;
  setIsAdmin (bool_decide (userRole = "admin")).

(** The effect of the provider.  The value returned by the role lookup
    says whether the function goes on after it ([false] after a
    [return]). *)
Definition checkAuthStatus (render : Session) : M unit :=
  currentAccessToken ← Cookies_get "accessToken";
  currentRefreshToken ← Cookies_get "refreshToken";
  emailFromCookie ← Cookies_get "email";
  match truthy currentAccessToken, truthy currentRefreshToken,
        truthy emailFromCookie with
  | Some cat, Some crt, Some em =>
      setIsAuthenticated true;;
      setAccessToken (Some cat);;
      setRefreshToken (Some crt);;
      setEmail (Some em);;
      fn ← Cookies_get "firstName";
      setFirstName (truthy fn);;
      ln ← Cookies_get "lastName";
      setLastName (truthy ln);;
      response ← get_me cat;
      goes_on ←
        match response with
        | Ok data => set_role_of data;; mret true
        | _ =>
            if unauthorized response then
              try_catch
                (newAccessToken ← refreshAccessToken render;
                 match truthy newAccessToken with
                 | Some t =>
                     retryResponse ← get_me t;
                     match retryResponse with
                     | Ok data => set_role_of data;; mret true
                     | _ => throw RequestFailed
                     end
                 | None => logout;; mret false
                 end)
                (λ _, clearAuthAndRedirect;; mret false)
            else
              setRole (Some "user");;
              setIsAdmin false;;
              mret true
        end;
      if goes_on && includes authRoutes (pathname env)
      then router_push "/chat"
      else mret ()
  | _, _, _ =>
      setIsAuthenticated false;;
      setRole None;;
      setIsAdmin false;;
      if includes protectedRoutes (pathname env)
      then router_push "/signin"
      else mret ()
  end.

Definition login (render : Session)
    (accessToken refreshToken email firstName lastName : string) : M unit :=
  Cookies_set "accessToken" (Some accessToken);;
  Cookies_set "refreshToken" (Some refreshToken);;
  Cookies_set "email" (Some email);;
  Cookies_set "firstName" (Some firstName);;
  Cookies_set "lastName" (Some lastName);;
  setIsAuthenticated true;;
  setAccessToken (Some accessToken);;
  setRefreshToken (Some refreshToken);;
  setEmail (Some email);;
  setFirstName (Some firstName);;
  setLastName (Some lastName);;
  response ← get_me accessToken;
  goes_on ←
    match response with
    | Ok data => set_role_of data;; mret true
    | _ =>
        if unauthorized response then
          try_catch
            (newAccessToken ← refreshAccessToken render;
             match truthy newAccessToken with
             | Some t =>
                 retryResponse ← get_me t;
                 match retryResponse with
                 | Ok data => set_role_of data;; mret true
                 | _ => throw RequestFailed
                 end
             | None =>
                 setRole (Some "user");;
                 setIsAdmin false;;
                 mret true
             end)
            (λ _, clearAuthAndRedirect;; mret false)
        else
          setRole (Some "user");;
          setIsAdmin false;;
          mret true
    end;
  if goes_on : bool then router_push "/chat" else mret ().

End Provider.

(** The refresh exchanges and the requests sent, read off a trace. *)
Definition refresh_exchanges (t : list Effect) : list string :=
  omap (λ e, match e with PostRefresh rt => Some rt | _ => None end) t.

Definition dispatched (t : list Effect) : list Config :=
  omap (λ e, match e with Dispatch c => Some c | _ => None end) t.

(** The session [logout] leaves. *)
Definition logged_out : Session :=
  mkSession false None None None None false None None.

Definition remove_cookies (c : gmap string string) : gmap string string :=
  delete "lastName" (delete "firstName" (delete "email"
    (delete "refreshToken" (delete "accessToken" c)))).

(** The cookies [login] writes and [logout] removes. *)
Definition credentials : list string :=
  ["accessToken"; "refreshToken"; "email"; "firstName"; "lastName"].

Definition no_credentials (c : gmap string string) : Prop :=
  ∀ name, name ∈ credentials → c !! name = None.

(** A request that was cancelled with the session logged out: the
    interceptor threw, nothing was sent, the state is the one [logout]
    leaves and its cookies are gone. *)
Definition cancelled_and_logged_out
    (w : World) (r : outcome unit) (w' : World) : Prop :=
  r = Raise (Cancel "Invalid token. Please log in again.")
  ∧ dispatched (trace w') = dispatched (trace w)
  ∧ session w' = logged_out
  ∧ no_credentials (cookies w').

End Auth.

(** ** Concrete pages, sessions and servers *)

Module Examples.
Import QueryLimit Chat Auth.

(** A guest after [n] completed exchanges on a working store. *)
Definition guest_at (n : nat) : Page :=
  mkPage false (Nat.iter n incrementCount (fresh LocalStorage.Working)) false.

(** A decoder for three tokens: one that expired in 1970, one that
    expires in 2100, and anything else is malformed. *)
Definition decode (token : string) : option JwtPayload :=
  if bool_decide (token = "expired")
  then Some (mkJwtPayload (Some (Double.of_Z 1)))
  else if bool_decide (token = "valid")
       then Some (mkJwtPayload (Some (Double.of_Z 4102444800)))
  else None.

(** A server that accepts one refresh token and knows one bearer; its
    role lookup is down for the bearer "valid-but-down". *)
Definition refresh_reply (rt : string) : Reply RefreshData :=
  if bool_decide (rt = "good-refresh")
  then Ok (mkRefreshData (Some "valid") (Some "next-refresh"))
  else HttpError 401.

Definition me_reply (bearer : string) : Reply MeData :=
  if bool_decide (bearer = "valid") then Ok (mkMeData (Some "admin"))
  else if bool_decide (bearer = "valid-but-down") then HttpError 500
  else HttpError 401.

Definition server : Env :=
  mkEnv 1762041600000 decode refresh_reply me_reply "/signin".

Definition render_of (access refresh : option string) : Session :=
  mkSession true (Some "a@b.in") None None None false access refresh.

Definition world_of (s : Session) (c : gmap string string) : World :=
  mkWorld s c [].

Definition get_profile : Config :=
  mkConfig "/api/conversation/list"
           {[ "Content-Type" := "application/json" ]}.

Definition cookies_down : gmap string string :=
  {[ "accessToken" := "valid-but-down"; "refreshToken" := "good-refresh";
     "email" := "a@b.in" ]}.

End Examples.

(** ** The count alone *)

Module CountOnly.
Import LocalStorage QueryLimit.

(** What a run of operations does to a count, with no store in sight. *)
Definition next_count (c : Js.number) (op : Op) : Js.number :=
  match op with
  | Increment => Js.add c (Js.Int 1)
  | Reset => Js.Int 0
  end.

Definition count_after (c : Js.number) (ops : list Op) : Js.number :=
  fold_left next_count ops c.

(** The store of a counter on a working store is in step with the
    count: it holds the count as a string, or nothing at a count of 0. *)
Definition in_step (h : Hook) : Prop :=
  mode (localStorage h) = Working
  ∧ (items (localStorage h) !! STORAGE_KEY = Some (Js.toString (queryCount h))
     ∨ (items (localStorage h) !! STORAGE_KEY = None
        ∧ queryCount h = Js.Int 0)).

End CountOnly.

(** ** Counting the submissions in a run of events *)

Module ChatRuns.
Import Chat.

Definition is_submit (ev : Event) : bool :=
  match ev with Submit => true | _ => false end.

Definition submissions (evs : list Event) : nat :=
  length (List.filter is_submit evs).

(** The dialog flag after a run in which only the dialog itself sets
    it: the last value the dialog asked for, or the flag as it was. *)
Definition dialog_after (shown : bool) (evs : list Event) : bool :=
  fold_left
    (λ flag ev, match ev with DialogOpenChange next => next | _ => flag end)
    evs shown.

End ChatRuns.

(** ** The counter shown to a guest ([QueryCounter]) *)

Module QueryCounter.

Definition totalQueries : Js.number := Js.Int 20.

(** [a === b] on numbers: NaN equals nothing, and -0 equals +0. *)
Definition strict_equals (a b : Js.number) : bool :=
  match a, b with
  | Js.NaN, _ | _, Js.NaN => false
  | Js.NegZero, Js.Int 0 | Js.Int 0, Js.NegZero => true
  | _, _ => bool_decide (a = b)
  end.

Definition usedQueries (remainingQueries : Js.number) : Js.number :=
  Js.sub totalQueries remainingQueries.

Definition getVariant (remainingQueries : Js.number) : string :=
  if Js.lt (Js.Int 10) remainingQueries then "secondary"
  else if Js.lt (Js.Int 5) remainingQueries then "default"
  else "destructive".

(** The text of the badge:
    [{remainingQueries} {remainingQueries === 1 ? 'query' : 'queries'} left]. *)
Definition badge_text (remainingQueries : Js.number) : string :=
  Js.toString remainingQueries +:+ " " +:+
  (if strict_equals remainingQueries (Js.Int 1) then "query" else "queries")
  +:+ " left".

End QueryCounter.

(** ** Editing a sent message ([updateMessageContent]) *)

Module ChatMessages.

Record Message : Type := mkMessage {
  id : string;
  role : string;
  content : string
}.

(** The calls on [useChat] the function makes. *)
Inductive ChatCall : Type :=
| SetMessages (messages : list Message)
| Append (role content : string).

(** [Array.prototype.findIndex], [None] for -1. *)
Fixpoint findIndex (p : Message → bool) (l : list Message) : option nat :=
  match l with
  | [] => None
  | m :: l' => if p m then Some 0%nat else S <$> findIndex p l'
  end.

Definition updateMessageContent
    (id oldContent newContent : string) (messages : list Message)
  : list ChatCall :=
  match findIndex
          (λ m, bool_decide (role m = "user")
                && bool_decide (content m = oldContent)) messages with
  | Some messageIndex =>
      let updatedMessages := take messageIndex messages in
      [SetMessages updatedMessages; Append "user" newContent]
  | None => []
  end.

End ChatMessages.

(** ** Requests of the pages through [axiosInstance] *)

Module PageRequests.
Import Auth ChatMessages.

(** A page function runs on the world of the provider and, besides,
    makes calls of its own (on its state, on the toaster): [P C A] is a
    computation that may throw, with the calls of type [C] made so far
    kept when it does. *)
Definition P (C A : Type) : Type :=
  list C → World → outcome A * list C * World.

#[global] Instance P_ret (C : Type) : MRet (P C) :=
  λ A a calls w, (Return a, calls, w).
#[global] Instance P_bind (C : Type) : MBind (P C) := λ A B f m calls w,
  match m calls w with
  | (Return a, calls', w') => f a calls' w'
  | (Raise e, calls', w') => (Raise e, calls', w')
  end.

Definition lift {C A : Type} (m : M A) : P C A :=
  λ calls w, let '(r, w') := m w in (r, calls, w').

Definition call {C : Type} (c : C) : P C unit :=
  λ calls w, (Return (), calls ++ [c], w).

Definition throwP {C A : Type} (e : Exn) : P C A :=
  λ calls w, (Raise e, calls, w).

(** [try { m } catch (error) { handler error }] *)
Definition try_catchP {C A : Type} (m : P C A) (handler : Exn → P C A)
  : P C A :=
  λ calls w,
  match m calls w with
  | (Return a, calls', w') => (Return a, calls', w')
  | (Raise e, calls', w') => handler e calls' w'
  end.

(** [try { m } finally { cleanup }] *)
Definition try_finally {C A : Type} (m : P C A) (cleanup : P C unit)
  : P C A :=
  λ calls w,
  match m calls w with
  | (r, calls', w') =>
      match cleanup calls' w' with
      | (Return _, calls'', w'') => (r, calls'', w'')
      | (Raise e, calls'', w'') => (Raise e, calls'', w'')
      end
  end.

(** A page function started with no call made yet. *)
Definition run_page {C A : Type} (m : P C A) (w : World)
  : outcome A * list C * World :=
  m [] w.

(** What a rejected axios call carries: [error.response.status] when
    the server answered, and [error.message] as axios words it. *)
Inductive AxiosError : Type :=
| Rejected (status : option Z) (message : string).

Definition error_of_reply {A : Type} (r : Reply A) : AxiosError :=
  match r with
  | HttpError status =>
      Rejected (Some status)
               ("Request failed with status code " +:+ pretty status)
  | _ => Rejected None "Network Error"
  end.

(** What [catch (error)] sees of a throw of the interceptor: an
    [axios.Cancel] has its message and no response. *)
Definition error_of_exn (e : Exn) : AxiosError :=
  match e with
  | Cancel message => Rejected None message
  | _ => Rejected None ""
  end.

(** The configuration the interceptor is handed for
    [axiosInstance.get(url)]: the address, and the headers of the
    instance, which are the headers axios gives every request on its own
    ([defaults], such as [Accept]; the library owns them) with the
    [Content-Type] the instance was created with. *)
Definition get_config (defaults : gmap string string) (url : string)
  : Config :=
  mkConfig url (<["Content-Type" := "application/json"]> defaults).

(** [await axiosInstance.get(url)]: the interceptor runs (a throw of it
    rejects the call), the request is sent, and the server answers; the
    value is the data of the response or the error the call is rejected
    with. *)
Definition axios_get {C A : Type} (defaults : gmap string string)
    (env : Env) (render : Session)
    (server : Config → Reply A) (url : string) : P C (A + AxiosError) :=
  try_catchP
    (config ← lift (requestInterceptor env render (get_config defaults url));
     lift (emit (Dispatch config));;
     match server config with
     | Ok data => mret (inl data)
     | r => mret (inr (error_of_reply r))
     end)
    (λ e, mret (inr (error_of_exn e))).

(** *** The chat page *)

(** The server behind the chat page. *)
Record ChatApi : Type := mkChatApi {
  conversation : Config → Reply (option (list Message));
  conversation_list : Config → Reply (list string);
  new_conversation : Config → Reply string
}.

(** What the chat page does to its own state and to the user. *)
Inductive PageCall : Type :=
| SetPageMessages (messages : list Message)
| SetConversationList (conversations : list string)
| SetConversationId (conversationId : string)
| PageToast (message : string).

Section ChatPage.

Variable defaults : gmap string string.
Variable env : Env.
Variable api : ChatApi.

Definition fetchMessages (render : Session) (conversationId : option string)
  : P PageCall unit :=
  match truthy conversationId with
  | None => mret ()
  | Some cid =>
      response ← axios_get defaults env render (conversation api)
                   ("/api/conversation/" +:+ cid);
      match response with
      | inl data => call (SetPageMessages (default [] data))
      | inr (Rejected status message) =>
          if bool_decide (status = Some 401) then mret ()
          else call (PageToast ("Failed to fetch conversation: "
                                +:+ message))
      end
  end.

Definition fetchConversations (render : Session) : P PageCall unit :=
  if negb (isAuthenticated render) then mret ()
  else
    response ← axios_get defaults env render (conversation_list api)
                 "/api/conversation/list";
    match response with
    | inl conversations => call (SetConversationList conversations)
    | inr _ => mret ()
    end.

Definition handleNewChat (render : Session) : P PageCall unit :=
  if negb (isAuthenticated render) then call (SetConversationId "guest")
  else
    response ← axios_get defaults env render (new_conversation api)
                 "/api/conversation";
    match response with
    | inl newConversationId =>
        lift (router_push ("/chat?conversation_id=" +:+ newConversationId))
    | inr _ => mret ()
    end.

End ChatPage.

(** *** The document dashboard ([DocumentManagementPage]) *)

Inductive DashCall : Type :=
| SetLoading (loading : bool)
| SetStats (data : string)
| SetHealth (data : string)
| SetTemplates (data : string)
| ToastError (message : string).

Definition stats_url : string := "/api/chat/documents/analytics/stats".
Definition health_url : string := "/api/chat/documents/analytics/health".
Definition templates_url : string := "/api/chat/documents/templates".

(** The three requests of [fetchData] and the setters of their data, in
    the order of the calls. *)
Definition dashboard_urls : list string :=
  [stats_url; health_url; templates_url].

(** An [await axiosInstance.get(url)] whose rejection is not caught on
    the spot: the data, or a throw. *)
Definition await_get {C : Type} (defaults : gmap string string)
    (env : Env) (render : Session)
    (server : Config → Reply string) (url : string) : P C string :=
  response ← axios_get defaults env render server url;
  match response with
  | inl data => mret data
  | inr _ => throwP RequestFailed
  end.

Definition fetchData (defaults : gmap string string)
    (env : Env) (render : Session)
    (server : Config → Reply string) : P DashCall unit :=
  try_finally
    (try_catchP
       (call (SetLoading true);;
        statsResponse ← await_get defaults env render server stats_url;
        call (SetStats statsResponse);;
        healthResponse ← await_get defaults env render server health_url;
        call (SetHealth healthResponse);;
        templatesResponse ← await_get defaults env render server templates_url;
        call (SetTemplates templatesResponse))
       (λ _, call (ToastError "Failed to load admin data")))
    (call (SetLoading false)).

End PageRequests.

(** ** More concrete servers *)

Module PageExamples.
Import Auth Examples ChatMessages PageRequests.

(** The decoder of [Examples], with a token that has no expiry claim
    and one whose expiry claim is 0. *)
Definition decode2 (token : string) : option JwtPayload :=
  if bool_decide (token = "no-exp") then Some (mkJwtPayload None)
  else if bool_decide (token = "epoch")
       then Some (mkJwtPayload (Some (Double.of_Z 0)))
  else decode token.

(** The role lookup of this server answers 401 for the bearer "stale". *)
Definition server2 : Env :=
  mkEnv 1762041600000 decode2 refresh_reply me_reply "/chat".

(** The headers axios gives every request on its own. *)
Definition axios_defaults : gmap string string :=
  {[ "Accept" := "application/json, text/plain, */*" ]}.

Definition cookies_stale : gmap string string :=
  {[ "accessToken" := "stale"; "refreshToken" := "good-refresh";
     "email" := "a@b.in"; "theme" := "light" ]}.

(** A chat server that knows one conversation and asks guests to sign
    in. *)
Definition chat_api : ChatApi :=
  mkChatApi
    (λ config,
       if bool_decide (headers config !! "Authorization" = Some "Bearer valid")
       then Ok (Some [mkMessage "1" "user" "Hello"])
       else HttpError 401)
    (λ config, Ok ["c1"; "c2"])
    (λ config, Ok "c3").

(** A dashboard server on which the health endpoint is down. *)
Definition dashboard_server (config : Config) : Reply string :=
  if bool_decide (url config = health_url) then HttpError 500
  else Ok ("data of " +:+ url config).

Definition dashboard_up (config : Config) : Reply string :=
  Ok ("data of " +:+ url config).

End PageExamples.

(** * Properties *)

(** ** Rounding and comparison of numbers *)

Module JsFacts.
Import Js.

Lemma F_exact z : Z.abs z < 2 ^ 53 → F z = Int z.
Proof.
  intros Hz. unfold F.
  assert (Hlog : Z.log2 (Z.abs z) < 53).
  { destruct (Z.eq_dec (Z.abs z) 0) as [-> | Hne]; [reflexivity |].
    apply Z.log2_lt_pow2; lia. }
  apply Z.ltb_lt in Hlog. now rewrite Hlog.
Qed.

Lemma F_nonneg z : 0 ≤ z → ge (F z) (Int 0) = true.
Proof.
  intros Hz. unfold F.
  destruct (Z.log2 (Z.abs z) <? 53).
  - cbn. apply negb_true_iff, Z.ltb_ge, Hz.
  - cbv zeta.
    match goal with |- context [Z.shiftl ?q ?k] =>
      match q with
      | (if _ then _ else _) => set (m := Z.shiftl q k)
      end
    end.
    destruct (Z.shiftl 1 1024 <=? m) eqn:Hbig.
    + assert ((z <? 0) = false) as -> by (apply Z.ltb_ge, Hz). reflexivity.
    + cbn. apply negb_true_iff, Z.ltb_ge.
      assert (0 ≤ m).
      { subst m. apply Z.shiftl_nonneg.
        pose proof (Z.abs_nonneg z) as Ha.
        assert (0 ≤ Z.shiftr (Z.abs z) (Z.log2 (Z.abs z) - 52))
          by (apply Z.shiftr_nonneg, Ha).
        destruct (_ || _); lia. }
      destruct (Z.sgn_spec z) as [[? ->] | [[? ->] | [? ->]]]; lia.
Qed.

(** One more than a count of at most 2^53: exact below, absorbed at
    2^53. *)
Lemma add_one_saturates c :
  0 ≤ c ≤ 2 ^ 53 → add (Int c) (Int 1) = Int (Z.min (c + 1) (2 ^ 53)).
Proof.
  intros Hc. cbn [add].
  destruct (Z.eq_dec c (2 ^ 53)) as [-> | Hne].
  - vm_compute. reflexivity.
  - destruct (Z.eq_dec (c + 1) (2 ^ 53)) as [Heq | Hne'].
    + rewrite Heq. vm_compute. reflexivity.
    + rewrite F_exact by lia. f_equal. lia.
Qed.

Lemma ge_zero_cases a :
  ge a (Int 0) = true ↔
  a = NegZero ∨ a = PosInf ∨ ∃ z, a = Int z ∧ 0 ≤ z.
Proof.
  split.
  - destruct a as [ | | | z | ]; cbn; try discriminate; eauto.
    intros H. apply negb_true_iff, Z.ltb_ge in H. eauto.
  - intros [-> | [-> | [z [-> Hz]]]]; cbn; try reflexivity.
    apply negb_true_iff, Z.ltb_ge, Hz.
Qed.

Lemma add_one_nonneg a :
  ge a (Int 0) = true → ge (add a (Int 1)) (Int 0) = true.
Proof.
  intros H. apply ge_zero_cases in H as [-> | [-> | [z [-> Hz]]]];
    try reflexivity.
  cbn [add]. apply F_nonneg. lia.
Qed.

End JsFacts.

(** ** The counter *)

Module QueryLimitFacts.
Import LocalStorage QueryLimit.

Lemma queryCount_commit prev next st : queryCount (commit prev next st) = next.
Proof.
  unfold commit, Js.Object_is. case_bool_decide; [cbn; congruence | reflexivity].
Qed.

Lemma queryCount_incrementCount h :
  queryCount (incrementCount h) = Js.add (queryCount h) (Js.Int 1).
Proof. apply queryCount_commit. Qed.

Lemma queryCount_resetCount h : queryCount (resetCount h) = Js.Int 0.
Proof. apply queryCount_commit. Qed.

Lemma queryCount_fresh m : queryCount (fresh m) = Js.Int 0.
Proof. now destruct m. Qed.

(** After [n] increments of a fresh counter the count is [n], up to the
    largest count a double can be incremented to. *)
Lemma queryCount_iter m n :
  queryCount (Nat.iter n incrementCount (fresh m))
  = Js.Int (Z.min (Z.of_nat n) (2 ^ 53)).
Proof.
  induction n as [| n IH].
  - apply queryCount_fresh.
  - change (Nat.iter (S n) incrementCount (fresh m))
      with (incrementCount (Nat.iter n incrementCount (fresh m))).
    rewrite queryCount_incrementCount, IH.
    rewrite JsFacts.add_one_saturates by lia. f_equal. lia.
Qed.

(** The three derived values at an integer count of at most 2^53. *)
Lemma derived_at c h :
  queryCount h = Js.Int c → 0 ≤ c ≤ 2 ^ 53 →
  remainingQueries h = Js.Int (Z.max 0 (20 - c))
  ∧ hasExceededLimit h = bool_decide (20 ≤ c)
  ∧ canMakeQuery h = bool_decide (c < 20).
Proof.
  intros Hq Hc. unfold remainingQueries, hasExceededLimit, canMakeQuery.
  rewrite Hq. unfold QUERY_LIMIT. repeat split.
  - unfold Js.sub.
    assert (Hsub : Js.add (Js.Int 20) (Js.neg (Js.Int c)) = Js.Int (20 - c)).
    { destruct c as [| c | c]; [reflexivity | | lia].
      cbn [Js.neg Js.add]. rewrite JsFacts.F_exact by lia. f_equal. }
    rewrite Hsub. unfold Js.Math_max.
    assert (Hlt : Js.lt (Js.Int 0) (Js.Int (20 - c)) = (0 <? 20 - c))
      by reflexivity.
    rewrite Hlt.
    destruct (Z.ltb_spec 0 (20 - c)); f_equal; lia.
  - cbn. destruct (Z.ltb_spec c 20); cbn; symmetry.
    + apply bool_decide_eq_false. lia.
    + apply bool_decide_eq_true. lia.
  - cbn. destruct (Z.ltb_spec c 20); symmetry.
    + apply bool_decide_eq_true. lia.
    + apply bool_decide_eq_false. lia.
Qed.

(** C2: after [n] increments of a fresh counter, for every [n] (and
    whether or not the browser lets the counter be stored),
    [remainingQueries] is [max(0, 20 - n)], [hasExceededLimit] is
    [n >= 20] and [canMakeQuery] is [n < 20]; the limit is the constant
    20. *)
Theorem derived_state_after_increments (m : Mode) (n : nat) :
  let h := Nat.iter n incrementCount (fresh m) in
  QUERY_LIMIT = Js.Int 20
  ∧ remainingQueries h = Js.Int (Z.max 0 (20 - Z.of_nat n))
  ∧ hasExceededLimit h = bool_decide (20 ≤ Z.of_nat n)
  ∧ canMakeQuery h = bool_decide (Z.of_nat n < 20).
Proof.
  intros h. split; [reflexivity |].
  destruct (derived_at (Z.min (Z.of_nat n) (2 ^ 53)) h) as (Hr & He & Hc).
  - apply queryCount_iter.
  - lia.
  - rewrite Hr, He, Hc. repeat split.
    + f_equal. lia.
    + apply bool_decide_ext. lia.
    + apply bool_decide_ext. lia.
Qed.

(** *** Initialisation *)

Lemma init_effect_nonneg st count :
  init_effect st = Some count → Js.ge count (Js.Int 0) = true.
Proof.
  unfold init_effect.
  destruct (getItem st STORAGE_KEY) as [[stored |] |]; try discriminate.
  destruct (truthy stored); try discriminate.
  destruct (negb _ && Js.ge _ _) eqn:Hc; try discriminate.
  intros [= <-]. now apply andb_true_iff in Hc.
Qed.

Lemma mount_not_loaded st :
  init_effect st = None → queryCount (mount st) = Js.Int 0.
Proof. unfold mount. now intros ->. Qed.

Lemma init_effect_entry st :
  init_effect st = None
  ∨ ∃ s, items st !! STORAGE_KEY = Some s
         ∧ init_effect st =
             (if truthy s then
                if negb (Js.isNaN (Js.parseInt s))
                   && Js.ge (Js.parseInt s) (Js.Int 0)
                then Some (Js.parseInt s) else None
              else None).
Proof.
  unfold init_effect, getItem.
  destruct (mode st); destruct (items st !! STORAGE_KEY) as [s |] eqn:Hs;
    eauto.
Qed.

Lemma lt_zero_not_ge a :
  Js.lt a (Js.Int 0) = true → Js.ge a (Js.Int 0) = false.
Proof.
  destruct a as [| | | z |]; intros H; try (cbn in H; discriminate);
    [reflexivity |].
  cbn [Js.lt] in H. cbn [Js.ge Js.lt]. now rewrite H.
Qed.

Lemma queryCount_mount_nonneg st :
  Js.ge (queryCount (mount st)) (Js.Int 0) = true.
Proof.
  unfold mount. destruct (init_effect st) as [count |] eqn:Hinit.
  - rewrite queryCount_commit. eapply init_effect_nonneg, Hinit.
  - reflexivity.
Qed.

Lemma apply_op_nonneg h op :
  Js.ge (queryCount h) (Js.Int 0) = true →
  Js.ge (queryCount (apply_op h op)) (Js.Int 0) = true.
Proof.
  intros H. destruct op; cbn [apply_op].
  - rewrite queryCount_incrementCount. now apply JsFacts.add_one_nonneg.
  - now rewrite queryCount_resetCount.
Qed.

Lemma run_ops_nonneg ops : ∀ h,
  Js.ge (queryCount h) (Js.Int 0) = true →
  Js.ge (queryCount (run_ops h ops)) (Js.Int 0) = true.
Proof.
  unfold run_ops. induction ops as [| op ops IH]; intros h H; cbn [fold_left].
  - exact H.
  - apply IH, apply_op_nonneg, H.
Qed.

(** C10: whatever the stored entry, a counter that finds no entry, an
    entry [parseInt] reads as NaN, or an entry it reads as a negative
    number starts at 0 (the negative value is not loaded); increment
    adds 1 and reset sets 0; and [queryCount >= 0] holds after mounting
    and after every run of operations. *)
Theorem count_never_negative (st : Storage) :
  (items st !! STORAGE_KEY = None → queryCount (mount st) = Js.Int 0)
  ∧ (∀ s, items st !! STORAGE_KEY = Some s →
          Js.parseInt s = Js.NaN → queryCount (mount st) = Js.Int 0)
  ∧ (∀ s, items st !! STORAGE_KEY = Some s →
          Js.lt (Js.parseInt s) (Js.Int 0) = true →
          queryCount (mount st) = Js.Int 0)
  ∧ (∀ h, queryCount (incrementCount h) = Js.add (queryCount h) (Js.Int 1)
          ∧ queryCount (resetCount h) = Js.Int 0)
  ∧ (∀ ops, Js.ge (queryCount (run_ops (mount st) ops)) (Js.Int 0) = true).
Proof.
  repeat split.
  - intros Hnone. apply mount_not_loaded.
    destruct (init_effect_entry st) as [H | (s & Hs & _)]; congruence.
  - intros s Hs Hnan. apply mount_not_loaded.
    destruct (init_effect_entry st) as [H | (s' & Hs' & ->)]; [exact H |].
    assert (s' = s) as -> by congruence.
    rewrite Hnan. cbn. now destruct (truthy s).
  - intros s Hs Hneg. apply mount_not_loaded.
    destruct (init_effect_entry st) as [H | (s' & Hs' & ->)]; [exact H |].
    assert (s' = s) as -> by congruence.
    rewrite (lt_zero_not_ge _ Hneg), andb_false_r. now destruct (truthy s).
  - apply queryCount_incrementCount.
  - apply queryCount_resetCount.
  - intros ops. apply run_ops_nonneg, queryCount_mount_nonneg.
Qed.

(** A stored "-5", a stored "abc" and an empty store all start the
    counter at 0. *)
Lemma count_never_negative_witness :
  queryCount (mount (mkStorage {[ STORAGE_KEY := "-5" ]} Working)) = Js.Int 0
  ∧ queryCount (mount (mkStorage {[ STORAGE_KEY := "abc" ]} Working))
    = Js.Int 0
  ∧ queryCount (mount (mkStorage ∅ Working)) = Js.Int 0.
Proof.
  split; [| split].
  - apply (proj1 (proj2 (proj2
      (count_never_negative (mkStorage {[ STORAGE_KEY := "-5" ]} Working))))
      "-5"); reflexivity.
  - apply (proj1 (proj2
      (count_never_negative (mkStorage {[ STORAGE_KEY := "abc" ]} Working)))
      "abc"); reflexivity.
  - apply (proj1 (count_never_negative (mkStorage ∅ Working))); reflexivity.
Defined.

(** *** Reset and the stored entry *)

(** On a working store, [resetCount] removes the entry and, when the
    count was not already 0, the render that follows writes it back. *)
Lemma resetCount_entry h :
  mode (localStorage h) = Working →
  items (localStorage (resetCount h)) !! STORAGE_KEY
  = if Js.Object_is (queryCount h) (Js.Int 0) then None else Some "0".
Proof.
  intros Hmode. unfold resetCount, removeItem, commit. rewrite Hmode.
  destruct (Js.Object_is (queryCount h) (Js.Int 0)); cbn [localStorage items].
  - apply lookup_delete_eq.
  - unfold persist_effect, setItem. cbn [mode items].
    apply lookup_insert_eq.
Qed.

Lemma mount_loaded st count :
  init_effect st = Some count → queryCount (mount st) = count.
Proof. unfold mount. intros ->. apply queryCount_commit. Qed.

(** Whatever [resetCount] leaves in the store, no entry or "0", a hook
    mounted on it starts at 0. *)
Lemma mount_after_resetCount h :
  queryCount (mount (localStorage (resetCount h))) = Js.Int 0.
Proof.
  destruct h as [c [it m]].
  unfold resetCount, removeItem, commit, persist_effect, setItem.
  cbn [localStorage queryCount items mode].
  destruct m; destruct (Js.Object_is c (Js.Int 0));
    cbn [localStorage queryCount items mode].
  all: try (apply mount_not_loaded; unfold init_effect, getItem;
            cbn [items mode]; rewrite ?lookup_delete_eq; reflexivity).
  apply mount_loaded. unfold init_effect, getItem. cbn [items mode].
  rewrite lookup_insert_eq. reflexivity.
Qed.

(** C4, at a count of 5: after [resetCount] the count reads 0 and
    [canMakeQuery] is true, but the store holds the entry "0" under the
    counter key, written by the persist effect of the render that
    follows the reset. *)
Theorem reset_rewrites_entry :
  let h := resetCount (Nat.iter 5 incrementCount (fresh Working)) in
  queryCount h = Js.Int 0
  ∧ canMakeQuery h = true
  ∧ items (localStorage h) !! STORAGE_KEY = Some "0".
Proof. vm_compute. auto. Qed.

End QueryLimitFacts.

(** ** The chat page and the provider *)

Module ChatFacts.
Import LocalStorage QueryLimit Chat Examples.

(** *** Submission *)

(** C1: when a guest whose [canMakeQuery] is false submits, the chat
    transport ([handleSubmit]) is not called, the default submission is
    prevented, and the signup dialog is opened with the current
    [queryCount]. *)
Theorem guest_over_limit_submit_blocked (p : Page) :
  isAuthenticated p = false →
  canMakeQuery (queryLimitContext p) = false →
  let '(p', calls) := step p Submit in
  calls = [PreventDefault]
  ∧ (HandleSubmit ∉ calls)
  ∧ SignupPromptDialog p'
    = {| open := true;
         dialog_queryCount := queryCount (queryLimitContext p) |}
  ∧ queryLimitContext p' = queryLimitContext p.
Proof.
  intros Hguest Hlimit. cbn [step]. unfold handleChatSubmit.
  rewrite Hguest, Hlimit. cbn [negb andb].
  repeat split. now intros ?%list_elem_of_singleton.
Qed.

(** [canMakeQuery] is false exactly when [queryCount >= 20], for every
    count but NaN. *)
Lemma canMakeQuery_false_iff h :
  queryCount h ≠ Js.NaN →
  (canMakeQuery h = false) ↔ (Js.ge (queryCount h) QUERY_LIMIT = true).
Proof.
  unfold canMakeQuery, QUERY_LIMIT. intros Hn.
  destruct (queryCount h) as [| | | z |]; cbn; try congruence;
    try (split; congruence).
  rewrite negb_true_iff. reflexivity.
Qed.

Lemma guest_over_limit_submit_blocked_witness :
  let '(p', calls) := step (guest_at 20) Submit in
  calls = [PreventDefault]
  ∧ (HandleSubmit ∉ calls)
  ∧ SignupPromptDialog p' = {| open := true; dialog_queryCount := Js.Int 20 |}
  ∧ queryLimitContext p' = queryLimitContext (guest_at 20).
Proof.
  apply (guest_over_limit_submit_blocked (guest_at 20)); reflexivity.
Defined.

(** *** Exchanges *)

Lemma run_app p evs1 evs2 :
  run p (evs1 ++ evs2)
  = let '(p1, c1) := run p evs1 in
    let '(p2, c2) := run p1 evs2 in
    (p2, c1 ++ c2).
Proof.
  revert p. induction evs1 as [| ev evs1 IH]; intros p.
  - cbn. now destruct (run p evs2).
  - cbn [app run]. destruct (step p ev) as [p1 c1]. rewrite IH.
    destruct (run p1 evs1) as [p2 c2]. destruct (run p2 evs2) as [p3 c3].
    now rewrite app_assoc.
Qed.

(** The chunks of an answer change nothing and call nothing. *)
Lemma run_chunks p chunks : run p (map StreamChunk chunks) = (p, []).
Proof.
  induction chunks as [| c chunks IH]; [reflexivity |].
  cbn [map run step]. now rewrite IH.
Qed.

Lemma run_exchange p chunks o :
  run p (exchange chunks o)
  = step p (match o with
            | Completed => StreamFinish
            | Failed e => StreamError e
            end).
Proof.
  unfold exchange. rewrite run_app, run_chunks. cbn [run].
  destruct (step p _) as [p1 c1]. now rewrite app_nil_r.
Qed.

Lemma onError_keeps_count e p :
  fst (onError e p) = p ∧ calls_of IncrementCount (snd (onError e p)) = 0%nat.
Proof.
  unfold onError.
  destruct e as [| msg [r |]]; [now split | | now split].
  case_bool_decide; now split.
Qed.

(** C5: an exchange of a guest that completes calls [incrementCount]
    exactly once, whatever the number of chunks streamed, and the count
    goes up by one; an exchange that fails calls it not at all; an
    exchange of an authenticated user, completed or failed, calls it not
    at all and leaves the counter as it was.  A guest who completes an
    exchange at [queryCount = 19] has [queryCount = 20] and
    [canMakeQuery = false] afterwards. *)
Theorem increment_once_per_completed_guest_exchange
    (p : Page) (chunks : list string) :
  (isAuthenticated p = false →
   let '(p', calls) := run p (exchange chunks Completed) in
   calls_of IncrementCount calls = 1%nat
   ∧ queryLimitContext p' = incrementCount (queryLimitContext p)
   ∧ (queryCount (queryLimitContext p) = Js.Int 19 →
      queryCount (queryLimitContext p') = Js.Int 20
      ∧ canMakeQuery (queryLimitContext p') = false))
  ∧ (∀ e,
       let '(p', calls) := run p (exchange chunks (Failed e)) in
       calls_of IncrementCount calls = 0%nat
       ∧ queryLimitContext p' = queryLimitContext p)
  ∧ (isAuthenticated p = true →
     ∀ o,
       let '(p', calls) := run p (exchange chunks o) in
       calls_of IncrementCount calls = 0%nat
       ∧ queryLimitContext p' = queryLimitContext p).
Proof.
  split; [| split].
  - intros Hguest. rewrite run_exchange. cbn [step]. unfold onFinish.
    rewrite Hguest. cbn [negb queryLimitContext].
    split; [reflexivity | split; [reflexivity |]].
    intros H19. unfold canMakeQuery.
    rewrite QueryLimitFacts.queryCount_incrementCount, H19. now split.
  - intros e. rewrite run_exchange. cbn [step].
    destruct (onError_keeps_count e p) as [Hp Hc].
    destruct (onError e p) as [p' calls]. cbn in Hp, Hc. now subst.
  - intros Hauth o. rewrite run_exchange. destruct o as [| e]; cbn [step].
    + unfold onFinish. rewrite Hauth. now split.
    + destruct (onError_keeps_count e p) as [Hp Hc].
      destruct (onError e p) as [p' calls]. cbn in Hp, Hc. now subst.
Qed.

Lemma increment_once_per_completed_guest_exchange_witness :
  let '(p', calls) :=
    run (guest_at 19) (exchange ["Under"; " the"; " Act"] Completed) in
  calls_of IncrementCount calls = 1%nat
  ∧ queryCount (queryLimitContext p') = Js.Int 20
  ∧ canMakeQuery (queryLimitContext p') = false.
Proof.
  pose proof (proj1 (increment_once_per_completed_guest_exchange
    (guest_at 19) ["Under"; " the"; " Act"]) eq_refl) as H.
  destruct (run (guest_at 19) (exchange ["Under"; " the"; " Act"] Completed))
    as [p' calls].
  destruct H as (Hcalls & _ & H19).
  split; [exact Hcalls | apply H19; reflexivity].
Defined.

(** *** Authentication *)

Lemma useQueryLimit_queryCount h1 h2 :
  queryCount h1 = queryCount h2 → useQueryLimit h1 = useQueryLimit h2.
Proof.
  intros H. unfold useQueryLimit, remainingQueries, hasExceededLimit,
    canMakeQuery. now rewrite H.
Qed.

Lemma chat_events_never_reset p ev :
  chat_event ev = true → calls_of ResetCount (snd (step p ev)) = 0%nat.
Proof.
  destruct ev as [| text | | e | next | next]; cbn [chat_event step];
    try discriminate; intros _.
  - unfold handleChatSubmit. now destruct (_ && _).
  - reflexivity.
  - unfold onFinish. now destruct (negb _).
  - unfold onError. destruct e as [| msg [r |]]; try reflexivity.
    now case_bool_decide.
  - reflexivity.
Qed.

(** C6: when the published authentication flag goes from false to
    true, whatever the count, the provider calls [resetCount] exactly
    once and the count is 0 afterwards; while the flag stays true the
    effect does not run again; no event of the chat (a submission, a
    chunk, the end or the failure of an exchange, the dialog opening or
    closing) calls [resetCount];
    and a second [resetCount] leaves the state the hook returns, and
    the count a hook mounted on the store would start from, as the first
    left them. *)
Theorem reset_on_authentication (p : Page) :
  isAuthenticated p = false →
  let '(p', calls) := step p (AuthChanged true) in
  calls = [ResetCount]
  ∧ isAuthenticated p' = true
  ∧ queryLimitContext p' = resetCount (queryLimitContext p)
  ∧ queryCount (queryLimitContext p') = Js.Int 0
  ∧ snd (step p' (AuthChanged true)) = []
  ∧ (∀ q ev, chat_event ev = true →
             calls_of ResetCount (snd (step q ev)) = 0%nat)
  ∧ (∀ h, useQueryLimit (resetCount (resetCount h))
          = useQueryLimit (resetCount h)
          ∧ queryCount (mount (localStorage (resetCount (resetCount h))))
            = queryCount (mount (localStorage (resetCount h)))).
Proof.
  intros Hguest. cbn [step]. unfold auth_changed, reset_effect.
  rewrite Hguest. cbn.
  split; [reflexivity | split; [reflexivity | split; [reflexivity |]]].
  split; [apply QueryLimitFacts.queryCount_resetCount |].
  split; [reflexivity |].
  split; [apply chat_events_never_reset |].
  intros h. split.
  - apply useQueryLimit_queryCount.
    now rewrite !QueryLimitFacts.queryCount_resetCount.
  - now rewrite !QueryLimitFacts.mount_after_resetCount.
Qed.

Lemma reset_on_authentication_witness :
  let '(p', calls) := step (guest_at 15) (AuthChanged true) in
  calls = [ResetCount] ∧ queryCount (queryLimitContext p') = Js.Int 0.
Proof.
  pose proof (reset_on_authentication (guest_at 15) eq_refl) as H.
  destruct (step (guest_at 15) (AuthChanged true)) as [p' calls].
  destruct H as (Hcalls & _ & _ & Hcount & _).
  exact (conj Hcalls Hcount).
Defined.

End ChatFacts.

(** ** The authentication provider *)

Module AuthFacts.
Import Auth Examples.

Lemma remove_cookies_no_credentials c : no_credentials (remove_cookies c).
Proof.
  intros name Hin. unfold credentials in Hin. unfold remove_cookies.
  repeat (apply elem_of_cons in Hin as [-> | Hin]);
    [.. | by apply elem_of_nil in Hin];
    repeat (rewrite lookup_delete_ne by discriminate);
    apply lookup_delete_eq.
Qed.

Lemma logout_run w :
  logout w = (Return (),
              mkWorld logged_out (remove_cookies (cookies w))
                      (trace w ++ [RouterPush "/signin"])).
Proof. destruct w. reflexivity. Qed.

(** [a < b] and [b < a] never both hold of doubles. *)
Lemma lt_asym (a b : Double.double) :
  Double.lt a b = true → Double.lt b a = false.
Proof.
  unfold Double.lt, SFltb.
  destruct a as [sa | sa | | sa ma ea], b as [sb | sb | | sb mb eb];
    cbn; try discriminate; try reflexivity;
    try (destruct sa; discriminate || reflexivity);
    try (destruct sb; discriminate || reflexivity);
    try (destruct sa, sb; discriminate || reflexivity).
  change (Pos.compare_cont Eq mb ma) with (mb ?= ma)%positive.
  change (Pos.compare_cont Eq ma mb) with (ma ?= mb)%positive.
  rewrite (Z.compare_antisym ea eb), (Pos.compare_antisym ma mb).
  destruct sa, sb; try discriminate; try reflexivity;
    destruct (ea ?= eb); cbn; try discriminate; try reflexivity;
    destruct (ma ?= mb)%positive; cbn; discriminate || reflexivity.
Qed.

Lemma expired_past payload e now :
  exp payload = Some e → Double.truthy e = true → Double.lt e now = true →
  expired payload now = true.
Proof.
  intros He Hnz Hlt. unfold expired. now rewrite He, Hnz, Hlt.
Qed.

Lemma not_expired payload e now :
  exp payload = Some e → Double.lt e now = false →
  expired payload now = false.
Proof.
  intros He Hlt. unfold expired. rewrite He, Hlt. apply andb_false_r.
Qed.

Lemma expired_future payload e now :
  exp payload = Some e → Double.lt now e = true →
  expired payload now = false.
Proof.
  intros He Hlt. apply (not_expired _ _ _ He), lt_asym, Hlt.
Qed.

(** The result of the interceptor that attaches the bearer token: the
    configuration with its [Authorization] header set, and nothing else
    of it changed. *)
Lemma set_header_bearer config t :
  let config' := set_header config "Authorization" ("Bearer " +:+ t) in
  url config' = url config
  ∧ headers config' !! "Authorization" = Some ("Bearer " +:+ t)
  ∧ ∀ k, k ≠ "Authorization" → headers config' !! k = headers config !! k.
Proof.
  cbn [set_header url headers]. split; [reflexivity |].
  split; [apply lookup_insert_eq |].
  intros k Hk. now apply lookup_insert_ne.
Qed.

Lemma refresh_exchanges_app t1 t2 :
  refresh_exchanges (t1 ++ t2) = refresh_exchanges t1 ++ refresh_exchanges t2.
Proof. apply omap_app. Qed.

Lemma dispatched_app t1 t2 :
  dispatched (t1 ++ t2) = dispatched t1 ++ dispatched t2.
Proof. apply omap_app. Qed.

(** *** The request interceptor *)

Ltac run_monad :=
  unfold mbind, M_bind, mret, M_ret, try_catch, throw, emit;
  cbn [session cookies trace].

(** Running the calls of a sequence up to the first one whose result
    depends on the server. *)
Ltac exec :=
  lazy beta iota zeta delta
    [mbind M_bind mret M_ret try_catch throw emit set_state router_push
     Cookies_get Cookies_set Cookies_remove get_me
     setIsAuthenticated setAccessToken setRefreshToken setEmail setFirstName
     setLastName setRole setIsAdmin
     session cookies trace isAuthenticated email firstName lastName role
     isAdmin accessToken refreshToken].

(** C7: with a token that decodes to an expiry that is not in the past
    (the claim is not below the clock in seconds, [Date.now() / 1000],
    compared as the code compares them; so whenever the clock is below
    the claim, by [lt_asym]), the request goes out once and no refresh
    is attempted: nothing else leaves the provider, and neither the
    state nor the cookies change.  What goes out is the configuration of
    the caller with its [Authorization] header set to "Bearer " followed
    by that very token, and with its address and every other header as
    they were.  With no token the request goes out as it came, so with
    no [Authorization] header if it had none. *)
Theorem unexpired_token_attached
    (env : Env) (render : Session) (config : Config) (w : World) :
  (∀ token payload e,
     truthy (accessToken render) = Some token →
     jwtDecode env token = Some payload →
     exp payload = Some e →
     Double.lt e (currentTime env) = false →
     ∃ config',
       request env render config w
       = (Return (),
          mkWorld (session w) (cookies w) (trace w ++ [Dispatch config']))
       ∧ url config' = url config
       ∧ headers config' !! "Authorization" = Some ("Bearer " +:+ token)
       ∧ ∀ k, k ≠ "Authorization" →
              headers config' !! k = headers config !! k)
  ∧ (truthy (accessToken render) = None →
     request env render config w
     = (Return (),
        mkWorld (session w) (cookies w) (trace w ++ [Dispatch config]))).
Proof.
  split.
  - intros token payload e Htok Hdec Hexp Hfut.
    exists (set_header config "Authorization" ("Bearer " +:+ token)).
    split; [| apply set_header_bearer].
    unfold request, requestInterceptor. rewrite Htok. run_monad.
    rewrite Hdec, (not_expired _ _ _ Hexp Hfut). reflexivity.
  - intros Htok. unfold request, requestInterceptor. rewrite Htok.
    reflexivity.
Qed.

Lemma unexpired_token_attached_witness :
  (∃ config',
     request server (render_of (Some "valid") (Some "good-refresh"))
       get_profile (world_of logged_out ∅)
     = (Return (), mkWorld logged_out ∅ [Dispatch config'])
     ∧ url config' = url get_profile
     ∧ headers config' !! "Authorization" = Some "Bearer valid"
     ∧ ∀ k, k ≠ "Authorization" →
            headers config' !! k = headers get_profile !! k)
  ∧ request server (render_of None None) get_profile (world_of logged_out ∅)
    = (Return (), mkWorld logged_out ∅ [Dispatch get_profile]).
Proof.
  split.
  - exact (proj1 (unexpired_token_attached server
      (render_of (Some "valid") (Some "good-refresh")) get_profile
      (world_of logged_out ∅)) "valid"
      (mkJwtPayload (Some (Double.of_Z 4102444800)))
      (Double.of_Z 4102444800) eq_refl eq_refl eq_refl eq_refl).
  - apply (proj2 (unexpired_token_attached server (render_of None None)
      get_profile (world_of logged_out ∅))); reflexivity.
Defined.

Lemma refreshAccessToken_none env render w :
  truthy (refreshToken render) = None →
  refreshAccessToken env render w = (Return None, w).
Proof. intros H. unfold refreshAccessToken. now rewrite H. Qed.

Lemma refreshAccessToken_ok env render w rt data :
  truthy (refreshToken render) = Some rt →
  refresh_endpoint env rt = Ok data →
  refreshAccessToken env render w
  = (Return (access_token data),
     mkWorld
       (mkSession (isAuthenticated (session w)) (email (session w))
          (firstName (session w)) (lastName (session w)) (role (session w))
          (isAdmin (session w)) (access_token data) (refresh_token data))
       (<["refreshToken" := default "undefined" (refresh_token data)]>
          (<["accessToken" := default "undefined" (access_token data)]>
             (cookies w)))
       (trace w ++ [PostRefresh rt])).
Proof.
  intros Hrt Hok. unfold refreshAccessToken. rewrite Hrt, Hok.
  destruct w as [s c t]. reflexivity.
Qed.

Lemma refreshAccessToken_failed env render w rt :
  truthy (refreshToken render) = Some rt →
  (∀ data, refresh_endpoint env rt ≠ Ok data) →
  refreshAccessToken env render w
  = (Return None,
     if unauthorized (refresh_endpoint env rt)
     then mkWorld logged_out (remove_cookies (cookies w))
            (trace w ++ [PostRefresh rt; RouterPush "/signin"])
     else mkWorld (session w) (cookies w) (trace w ++ [PostRefresh rt])).
Proof.
  intros Hrt Herr. unfold refreshAccessToken. rewrite Hrt.
  destruct w as [s c t].
  destruct (refresh_endpoint env rt) as [data | status |] eqn:Hr.
  - now destruct (Herr data).
  - run_monad. destruct (unauthorized (HttpError status)).
    + rewrite logout_run. cbn. now rewrite <- app_assoc.
    + reflexivity.
  - reflexivity.
Qed.

(** A world in which [logout] ran last and nothing was sent. *)
Lemma cancelled_after_logout w0 c t :
  dispatched t = dispatched (trace w0) →
  cancelled_and_logged_out w0
    (Raise (Cancel "Invalid token. Please log in again."))
    (mkWorld logged_out (remove_cookies c) t).
Proof.
  intros Hd. repeat split; [exact Hd |].
  apply remove_cookies_no_credentials.
Qed.

Ltac solve_trace :=
  rewrite ?refresh_exchanges_app, ?dispatched_app; cbn;
  rewrite ?app_nil_r; reflexivity.

(** An expiry claim of 0 is falsy, so the guard
    [decodedToken.exp && ...] does not take such a token as expired: it
    is attached as it is and no refresh is attempted. *)
Lemma zero_expiry_attached env render config w token payload :
  truthy (accessToken render) = Some token →
  jwtDecode env token = Some payload →
  exp payload = Some (Double.of_Z 0) →
  request env render config w
  = (Return (),
     mkWorld (session w) (cookies w)
       (trace w ++
        [Dispatch (set_header config "Authorization"
                     ("Bearer " +:+ token))])).
Proof.
  intros Htok Hdec Hexp. unfold request, requestInterceptor.
  rewrite Htok. run_monad. rewrite Hdec. unfold expired. rewrite Hexp.
  reflexivity.
Qed.

(** C3, as the code has it: with a token that decodes to an expiry
    the interceptor takes as past (a claim that is truthy, so neither 0
    nor NaN, and below the clock in seconds, [Date.now() / 1000], both
    compared as the doubles they are), [refreshAccessToken] runs once
    before anything is sent.  It attempts one refresh exchange when the
    render holds a refresh token and none when it holds none.  When the
    exchange returns an access token the request is sent, after the
    exchange: what goes out is the configuration of the caller with its
    [Authorization] header set to "Bearer " followed by the new token
    and nothing else changed.  In every other case the request is
    cancelled, nothing is sent and the session is logged out. *)
Theorem expired_token_refreshed_or_cancelled
    (env : Env) (render : Session) (config : Config) (w : World)
    (token : string) (payload : JwtPayload) (e : Double.double) :
  truthy (accessToken render) = Some token →
  jwtDecode env token = Some payload →
  exp payload = Some e →
  Double.truthy e = true →
  Double.lt e (currentTime env) = true →
  let '(r, w') := request env render config w in
  match truthy (refreshToken render) with
  | None =>
      refresh_exchanges (trace w') = refresh_exchanges (trace w)
      ∧ cancelled_and_logged_out w r w'
  | Some rt =>
      refresh_exchanges (trace w') = refresh_exchanges (trace w) ++ [rt]
      ∧ match refresh_endpoint env rt with
        | Ok data =>
            match truthy (access_token data) with
            | Some t =>
                r = Return ()
                ∧ ∃ config',
                    trace w' = trace w ++ [PostRefresh rt; Dispatch config']
                    ∧ url config' = url config
                    ∧ headers config' !! "Authorization"
                      = Some ("Bearer " +:+ t)
                    ∧ ∀ k, k ≠ "Authorization" →
                           headers config' !! k = headers config !! k
            | None => cancelled_and_logged_out w r w'
            end
        | _ => cancelled_and_logged_out w r w'
        end
  end.
Proof.
  intros Htok Hdec Hexp Hnz Hpast.
  unfold request, requestInterceptor. rewrite Htok. run_monad.
  rewrite Hdec, (expired_past _ _ _ Hexp Hnz Hpast).
  destruct (truthy (refreshToken render)) as [rt |] eqn:Hrt.
  - destruct (refresh_endpoint env rt) as [data | status |] eqn:Hreply.
    + rewrite (refreshAccessToken_ok _ _ _ _ _ Hrt Hreply).
      destruct (truthy (access_token data)) as [t |] eqn:Ht.
      * cbn [session cookies trace].
        split; [solve_trace | split; [reflexivity |]].
        exists (set_header config "Authorization" ("Bearer " +:+ t)).
        split; [now rewrite <- app_assoc | apply set_header_bearer].
      * rewrite !logout_run. cbn [session cookies trace].
        split; [solve_trace |].
        apply cancelled_after_logout. solve_trace.
    + rewrite (refreshAccessToken_failed _ _ _ _ Hrt)
        by (intros data; rewrite Hreply; discriminate).
      rewrite Hreply. cbn [truthy]. rewrite !logout_run.
      destruct (unauthorized (HttpError status));
        cbn [session cookies trace];
        (split; [solve_trace | apply cancelled_after_logout; solve_trace]).
    + rewrite (refreshAccessToken_failed _ _ _ _ Hrt)
        by (intros data; rewrite Hreply; discriminate).
      rewrite Hreply. cbn [truthy unauthorized]. rewrite !logout_run.
      cbn [session cookies trace].
      split; [solve_trace | apply cancelled_after_logout; solve_trace].
  - rewrite (refreshAccessToken_none _ _ _ Hrt). cbn [truthy].
    rewrite !logout_run. cbn [session cookies trace].
    split; [solve_trace | apply cancelled_after_logout; solve_trace].
Qed.

(** An expired token and a refresh token the server accepts: one
    exchange, then the request with the new token. *)
Lemma expired_token_refreshed_or_cancelled_witness :
  let '(r, w') :=
    request server (render_of (Some "expired") (Some "good-refresh"))
      get_profile (world_of logged_out ∅) in
  refresh_exchanges (trace w') = ["good-refresh"]
  ∧ r = Return ()
  ∧ ∃ config',
      trace w' = [PostRefresh "good-refresh"; Dispatch config']
      ∧ url config' = url get_profile
      ∧ headers config' !! "Authorization" = Some "Bearer valid"
      ∧ ∀ k, k ≠ "Authorization" →
             headers config' !! k = headers get_profile !! k.
Proof.
  apply (expired_token_refreshed_or_cancelled server
    (render_of (Some "expired") (Some "good-refresh")) get_profile
    (world_of logged_out ∅) "expired" (mkJwtPayload (Some (Double.of_Z 1)))
    (Double.of_Z 1)); reflexivity.
Defined.

(** C3 as stated fails when the render holds no refresh token: the
    token has an expiry in the past, and no refresh exchange is
    attempted at all (the request is cancelled and the session logged
    out at once). *)
Lemma expired_token_no_refresh_token :
  let render := render_of (Some "expired") None in
  let '(r, w') := request server render get_profile (world_of render ∅) in
  (jwtDecode server "expired" = Some (mkJwtPayload (Some (Double.of_Z 1)))
   ∧ Double.truthy (Double.of_Z 1) = true
   ∧ Double.lt (Double.of_Z 1) (currentTime server) = true)
  ∧ refresh_exchanges (trace w') = []
  ∧ ¬ (length (refresh_exchanges (trace w')) = 1%nat).
Proof. vm_compute. repeat split; discriminate. Qed.

(** The expiry test is a test on doubles.  At
    [Date.now() = 1762041600001] the clock in seconds, 1762041600.001,
    is not a double, and the division gives the double just below it.  A
    claim that is this very double lies before the clock, by less than
    10^-7 seconds, and is not taken as expired: the token is attached
    and no refresh is attempted. *)
Lemma expiry_compared_as_doubles :
  let e := S754_finite false 7390538131050594 (-22) in
  let env := mkEnv 1762041600001 (λ _, Some (mkJwtPayload (Some e)))
               refresh_reply me_reply "/chat" in
  let render := render_of (Some "token") (Some "good-refresh") in
  (∃ q, Double.to_Q e = Some q ∧ (q < 1762041600001 # 1000)%Q)
  ∧ currentTime env = e
  ∧ expired (mkJwtPayload (Some e)) (currentTime env) = false
  ∧ refresh_exchanges
      (trace (snd (request env render get_profile (world_of render ∅)))) = []
  ∧ dispatched
      (trace (snd (request env render get_profile (world_of render ∅))))
    = [set_header get_profile "Authorization" "Bearer token"].
Proof.
  split; [eexists; split; [reflexivity | reflexivity] |].
  now vm_compute.
Qed.

(** C8, as the code has it: with a token that does not decode, the
    interceptor attempts no refresh; it logs out and cancels the
    request, so nothing is sent. *)
Theorem malformed_token_cancelled
    (env : Env) (render : Session) (config : Config) (w : World)
    (token : string) :
  truthy (accessToken render) = Some token →
  jwtDecode env token = None →
  request env render config w
  = (Raise (Cancel "Invalid token. Please log in again."),
     mkWorld logged_out (remove_cookies (cookies w))
       (trace w ++ [RouterPush "/signin"])).
Proof.
  intros Htok Hdec. unfold request, requestInterceptor. rewrite Htok.
  run_monad. rewrite Hdec, logout_run. reflexivity.
Qed.

Lemma malformed_token_cancelled_witness :
  request server (render_of (Some "garbage") (Some "good-refresh"))
    get_profile (world_of logged_out ∅)
  = (Raise (Cancel "Invalid token. Please log in again."),
     mkWorld logged_out (remove_cookies ∅) [RouterPush "/signin"]).
Proof.
  apply (malformed_token_cancelled server
    (render_of (Some "garbage") (Some "good-refresh")) get_profile
    (world_of logged_out ∅) "garbage"); reflexivity.
Defined.

(** C8 as stated fails: with a malformed token and a refresh token the
    server would accept, no refresh is attempted and the request is
    cancelled with the session logged out, where the same render with an
    expired token refreshes and sends the request. *)
Lemma malformed_token_not_refreshed :
  let malformed := render_of (Some "garbage") (Some "good-refresh") in
  let expired := render_of (Some "expired") (Some "good-refresh") in
  let '(r, w') := request server malformed get_profile (world_of malformed ∅) in
  let '(r0, w0) := request server expired get_profile (world_of expired ∅) in
  (jwtDecode server "garbage" = None
   ∧ refresh_endpoint server "good-refresh"
     = Ok (mkRefreshData (Some "valid") (Some "next-refresh")))
  ∧ ¬ (length (refresh_exchanges (trace w')) = 1%nat)
  ∧ r = Raise (Cancel "Invalid token. Please log in again.")
  ∧ session w' = logged_out
  ∧ length (refresh_exchanges (trace w0)) = 1%nat
  ∧ r0 = Return ()
  ∧ ¬ (r = r0).
Proof. vm_compute. repeat split; discriminate. Qed.

(** *** The role lookup *)

(** C9: when the role lookup fails with anything but a 401 or a 403 (an
    other status, or no response at all), [checkAuthStatus] and [login]
    both set the role to "user" and [isAdmin] to false and leave the
    session authenticated: nothing is thrown, the tokens stay in the
    state and in the cookies, no refresh is attempted and there is no
    redirect to the sign-in page. *)
Theorem role_lookup_failure_defaults_to_user (env : Env) (render : Session) :
  (∀ w cat crt em,
     truthy (cookies w !! "accessToken") = Some cat →
     truthy (cookies w !! "refreshToken") = Some crt →
     truthy (cookies w !! "email") = Some em →
     (∀ data, me_endpoint env cat ≠ Ok data) →
     unauthorized (me_endpoint env cat) = false →
     let '(r, w') := checkAuthStatus env render w in
     r = Return ()
     ∧ isAuthenticated (session w') = true
     ∧ role (session w') = Some "user"
     ∧ isAdmin (session w') = false
     ∧ accessToken (session w') = Some cat
     ∧ refreshToken (session w') = Some crt
     ∧ cookies w' = cookies w
     ∧ trace w' =
         trace w ++ GetMe cat ::
         (if includes authRoutes (pathname env)
          then [RouterPush "/chat"] else []))
  ∧ (∀ w accessToken' refreshToken' email' firstName' lastName',
       (∀ data, me_endpoint env accessToken' ≠ Ok data) →
       unauthorized (me_endpoint env accessToken') = false →
       let '(r, w') :=
         login env render accessToken' refreshToken' email' firstName'
           lastName' w in
       r = Return ()
       ∧ session w' =
           mkSession true (Some email') (Some firstName') (Some lastName')
             (Some "user") false (Some accessToken') (Some refreshToken')
       ∧ cookies w' !! "accessToken" = Some accessToken'
       ∧ cookies w' !! "refreshToken" = Some refreshToken'
       ∧ trace w' = trace w ++ [GetMe accessToken'; RouterPush "/chat"]).
Proof.
  split.
  - intros [[] c t] cat crt em Hcat Hcrt Hem Hfail Hother.
    cbn [cookies] in Hcat, Hcrt, Hem.
    unfold checkAuthStatus. exec. rewrite Hcat, Hcrt, Hem. exec.
    destruct (me_endpoint env cat) as [data | status |] eqn:Hme.
    + now destruct (Hfail data).
    + rewrite Hother. exec.
      destruct (includes authRoutes (pathname env)); exec;
        repeat split; now rewrite <- ?app_assoc.
    + cbn [unauthorized]. exec.
      destruct (includes authRoutes (pathname env)); exec;
        repeat split; now rewrite <- ?app_assoc.
  - intros [[] c t] at' rt' em' fn' ln' Hfail Hother.
    unfold login. exec.
    destruct (me_endpoint env at') as [data | status |] eqn:Hme.
    + now destruct (Hfail data).
    + rewrite Hother. exec.
      repeat split; try (now rewrite <- ?app_assoc);
        repeat (rewrite lookup_insert_ne by discriminate);
        apply lookup_insert_eq.
    + cbn [unauthorized]. exec.
      repeat split; try (now rewrite <- ?app_assoc);
        repeat (rewrite lookup_insert_ne by discriminate);
        apply lookup_insert_eq.
Qed.

(** The role lookup answers 500 at startup and at login. *)
Lemma role_lookup_failure_defaults_to_user_witness :
  (let '(r, w') :=
     checkAuthStatus server logged_out (world_of logged_out cookies_down) in
   r = Return ()
   ∧ isAuthenticated (session w') = true
   ∧ role (session w') = Some "user"
   ∧ isAdmin (session w') = false
   ∧ accessToken (session w') = Some "valid-but-down"
   ∧ refreshToken (session w') = Some "good-refresh"
   ∧ cookies w' = cookies_down
   ∧ trace w' = [GetMe "valid-but-down"; RouterPush "/chat"])
  ∧ (let '(r, w') :=
       login server logged_out "valid-but-down" "good-refresh" "a@b.in"
         "A" "B" (world_of logged_out ∅) in
     r = Return ()
     ∧ session w' =
         mkSession true (Some "a@b.in") (Some "A") (Some "B") (Some "user")
           false (Some "valid-but-down") (Some "good-refresh")
     ∧ cookies w' !! "accessToken" = Some "valid-but-down"
     ∧ cookies w' !! "refreshToken" = Some "good-refresh"
     ∧ trace w' = [GetMe "valid-but-down"; RouterPush "/chat"]).
Proof.
  split.
  - apply (proj1 (role_lookup_failure_defaults_to_user server logged_out)
      (world_of logged_out cookies_down) "valid-but-down" "good-refresh"
      "a@b.in"); try reflexivity.
    intros data. discriminate.
  - apply (proj2 (role_lookup_failure_defaults_to_user server logged_out)
      (world_of logged_out ∅) "valid-but-down" "good-refresh" "a@b.in"
      "A" "B"); try reflexivity.
    intros data. discriminate.
Defined.

End AuthFacts.

(** * Further properties *)

Module JsParseInt.
Import Js JsFacts.

Lemma digit_val_char d :
  (d < 10)%N → digit_val (pretty_N_char d) = Some (Z.of_N d).
Proof.
  intros Hd.
  assert (d = 0 ∨ d = 1 ∨ d = 2 ∨ d = 3 ∨ d = 4 ∨ d = 5 ∨ d = 6 ∨ d = 7
          ∨ d = 8 ∨ d = 9)%N as H by lia.
  repeat destruct H as [-> | H]; try subst d; reflexivity.
Qed.

(** Reading the digits [pretty_N_go] writes in front of [s]. *)
Lemma digits_prefix_pretty_N_go x :
  (0 < x)%N →
  ∃ k, 0 ≤ k ∧ Z.of_N x < 10 ^ k ∧
       ∀ a s, digits_prefix (Some a) (pretty_N_go x s)
              = digits_prefix (Some (a * 10 ^ k + Z.of_N x)) s.
Proof.
  induction (N.lt_wf_0 x) as [x _ IH]. intros Hx.
  assert (Hmod : (x `mod` 10 < 10)%N) by (apply N.mod_lt; lia).
  assert (Hdm : x = (10 * (x `div` 10) + x `mod` 10)%N)
    by (apply N.div_mod; lia).
  destruct (N.eq_dec (x `div` 10)%N 0%N) as [Hz | Hnz].
  - exists 1. rewrite Z.pow_1_r.
    assert (x = x `mod` 10)%N as Hx' by (rewrite Hz in Hdm; lia).
    split; [clear; lia | split; [clear - Hx' Hmod; lia |]]. intros a s.
    rewrite pretty_N_go_step, Hz, pretty_N_go_0 by done.
    cbn [digits_prefix]. rewrite digit_val_char by done. cbn [default from_option id].
    replace (10 * a + Z.of_N (x `mod` 10)) with (a * 10 + Z.of_N x) by lia.
    reflexivity.
  - destruct (IH (x `div` 10)%N) as (k & Hk & Hlt & Hgo).
    { apply N.div_lt; lia. }
    { lia. }
    exists (k + 1). repeat split; [lia | |].
    + rewrite Z.pow_add_r by lia. lia.
    + intros a s. rewrite pretty_N_go_step, Hgo by done.
      cbn [digits_prefix]. rewrite digit_val_char by done. cbn [default from_option id].
      replace (10 * (a * 10 ^ k + Z.of_N (x `div` 10)) + Z.of_N (x `mod` 10))
        with (a * 10 ^ (k + 1) + Z.of_N x); [reflexivity |].
      rewrite Z.pow_add_r by lia. lia.
Qed.

Lemma pretty_N_go_head x s :
  (0 < x)%N →
  ∃ d s', (d < 10)%N ∧ pretty_N_go x s = String (pretty_N_char d) s'.
Proof.
  revert s. induction (N.lt_wf_0 x) as [x _ IH]. intros s Hx.
  rewrite pretty_N_go_step by done.
  destruct (N.eq_dec (x `div` 10)%N 0%N) as [Hz | Hnz].
  - rewrite Hz, pretty_N_go_0. exists (x `mod` 10)%N, s.
    split; [apply N.mod_lt; lia | reflexivity].
  - apply IH; [apply N.div_lt; lia | now apply N.neq_0_lt_0].
Qed.

Lemma parseInt_digit_head d s :
  (d < 10)%N →
  parseInt (String (pretty_N_char d) s)
  = match digits_prefix (Some 0) (String (pretty_N_char d) s) with
    | None => NaN
    | Some 0 => Int 0
    | Some m => F m
    end.
Proof.
  intros Hd.
  assert (d = 0 ∨ d = 1 ∨ d = 2 ∨ d = 3 ∨ d = 4 ∨ d = 5 ∨ d = 6 ∨ d = 7
          ∨ d = 8 ∨ d = 9)%N as H by lia.
  repeat destruct H as [-> | H]; try subst d; reflexivity.
Qed.

(** [parseInt] reads back the decimal writing of a positive integer. *)
Lemma parseInt_pretty z : 0 < z → parseInt (pretty z) = F z.
Proof.
  intros Hz. destruct z as [| p |]; try lia.
  change (pretty (Z.pos p)) with (pretty_N_go (N.pos p) "").
  destruct (pretty_N_go_head (N.pos p) "") as (d & s' & Hd & Hhead);
    [lia |].
  rewrite Hhead, parseInt_digit_head, <- Hhead by done.
  destruct (digits_prefix_pretty_N_go (N.pos p)) as (k & _ & _ & Hgo);
    [lia |].
  rewrite Hgo. cbn [digits_prefix]. reflexivity.
Qed.

End JsParseInt.

Module JsToString.
Import Js JsFacts JsParseInt.

(** A double of at least 2^53 rounds to a double of at least 2^53. *)
Lemma F_large z :
  2 ^ 53 ≤ z → F z = PosInf ∨ ∃ m, F z = Int m ∧ 2 ^ 53 ≤ m.
Proof.
  intros Hz. unfold F.
  assert (Ha : Z.abs z = z) by lia. rewrite Ha.
  assert (He : 53 ≤ Z.log2 z) by (apply Z.log2_le_pow2; lia).
  assert ((Z.log2 z <? 53) = false) as -> by (apply Z.ltb_ge, He).
  cbv zeta.
  set (k := Z.log2 z - 52).
  set (q := Z.shiftr z k).
  assert (Hq : 2 ^ 52 ≤ q).
  { subst q. rewrite Z.shiftr_div_pow2 by lia.
    apply Z.div_le_lower_bound; [apply Z.pow_pos_nonneg; lia |].
    rewrite <- Z.pow_add_r by lia. replace (k + 52) with (Z.log2 z) by lia.
    apply Z.log2_spec. lia. }
  match goal with |- context [Z.shiftl ?x k] =>
    match x with (if _ then _ else _) => set (q' := x) end end.
  assert (Hq' : q ≤ q') by (subst q'; destruct (_ || _); lia).
  destruct (Z.shiftl 1 1024 <=? Z.shiftl q' k).
  - assert ((z <? 0) = false) as -> by (apply Z.ltb_ge; lia). now left.
  - right. eexists. split; [reflexivity |].
    assert (Z.sgn z = 1) as -> by (apply Z.sgn_pos; lia).
    rewrite Z.mul_1_l, Z.shiftl_mul_pow2 by lia.
    assert (0 < 2 ^ k) by (apply Z.pow_pos_nonneg; lia).
    assert (2 ^ 53 ≤ 2 ^ 52 * 2 ^ k).
    { rewrite <- Z.pow_add_r by lia. apply Z.pow_le_mono_r; lia. }
    nia.
Qed.

Lemma F_nonpos z :
  z ≤ 0 → F z = NegInf ∨ ∃ m, F z = Int m ∧ m ≤ 0.
Proof.
  intros Hz. unfold F.
  destruct (Z.log2 (Z.abs z) <? 53); [right; eauto |].
  cbv zeta.
  match goal with |- context [Z.shiftl ?q ?k] =>
    match q with
    | (if _ then _ else _) => set (m := Z.shiftl q k)
    end
  end.
  assert (0 ≤ m).
  { subst m. apply Z.shiftl_nonneg.
    pose proof (Z.abs_nonneg z) as Ha.
    assert (0 ≤ Z.shiftr (Z.abs z) (Z.log2 (Z.abs z) - 52))
      by (apply Z.shiftr_nonneg, Ha).
    destruct (_ || _); lia. }
  destruct (Z.shiftl 1 1024 <=? m) eqn:Hbig.
  - destruct (Z.ltb_spec z 0); [now left |].
    assert (z = 0) as -> by lia. exfalso. subst m. revert Hbig.
    vm_compute. discriminate.
  - right. eexists. split; [reflexivity |].
    destruct (Z.sgn_spec z) as [[? ->] | [[? ->] | [? ->]]]; lia.
Qed.

(** The shortest decimal writing of an integer below 2^53 is the
    integer itself. *)
Lemma shortest_exact fuel : ∀ k n z,
  0 < z < 2 ^ 53 → shortest fuel k n z = z.
Proof.
  induction fuel as [| fuel IH]; intros k n z Hz; [reflexivity |].
  cbn [shortest]. cbv zeta.
  assert (Hp : 0 ≤ 10 ^ (n - k)) by (apply Z.pow_nonneg; lia).
  generalize dependent (10 ^ (n - k)). intros p Hp.
  assert (Hlo : 0 ≤ z `div` p * p ≤ z
                ∧ (0 < p → z < z `div` p * p + p)
                ∧ (p = 0 → z `div` p * p = 0)).
  { destruct (Z.eq_dec p 0) as [-> | Hne].
    - rewrite Z.mul_0_r. lia.
    - pose proof (Z.div_mod z p Hne) as Hdm.
      pose proof (Z.mod_pos_bound z p) as Hmod.
      assert (0 ≤ z `div` p) by (apply Z.div_pos; lia).
      rewrite (Z.mul_comm p) in Hdm.
      assert (0 ≤ z `div` p * p) by (apply Z.mul_nonneg_nonneg; lia).
      lia. }
  generalize dependent (z `div` p * p). intros lo Hlo.
  assert (Hhi : Object_is (F (lo + p)) (Int z) = false).
  { unfold Object_is. apply bool_decide_eq_false. intros Heq.
    destruct (Z.lt_ge_cases (lo + p) (2 ^ 53)) as [Hsmall | Hbig].
    - rewrite F_exact in Heq by lia. injection Heq as Heq. 
      destruct (Z.eq_dec p 0); lia.
    - destruct (F_large _ Hbig) as [HF | (m & HF & Hm)];
        rewrite HF in Heq; [discriminate |]. injection Heq as Heq. lia. }
  rewrite Hhi.
  destruct (Object_is (F lo) (Int z)) eqn:Hok.
  - unfold Object_is in Hok. apply bool_decide_eq_true in Hok.
    rewrite F_exact in Hok by lia. now injection Hok.
  - now apply IH.
Qed.

Lemma toString_small z : 0 < z < 2 ^ 53 → toString (Int z) = pretty z.
Proof.
  intros Hz. unfold toString.
  assert ((z =? 0) = false) as -> by (apply Z.eqb_neq; lia).
  assert ((z <? 0) = false) as -> by (apply Z.ltb_ge; lia).
  unfold positive_toString. rewrite shortest_exact by done.
  assert ((z <? 10 ^ 21) = true) as ->; [| reflexivity].
  apply Z.ltb_lt. assert (2 ^ 53 < 10 ^ 21) by reflexivity. lia.
Qed.

(** The counter survives being written and read back, for every count
    an increment can reach. *)
Lemma parseInt_toString z :
  0 ≤ z ≤ 2 ^ 53 → parseInt (toString (Int z)) = Int z.
Proof.
  intros Hz.
  destruct (Z.eq_dec z 0) as [-> | Hnz]; [reflexivity |].
  destruct (Z.eq_dec z (2 ^ 53)) as [-> | Hne]; [vm_compute; reflexivity |].
  rewrite toString_small, parseInt_pretty by lia. apply F_exact. lia.
Qed.

Lemma parseInt_truthy s : parseInt s ≠ NaN → QueryLimit.truthy s = true.
Proof. destruct s; [intros H; now destruct H | reflexivity]. Qed.

End JsToString.

Module QueryLimitMore.
Import LocalStorage QueryLimit CountOnly QueryLimitFacts JsToString.

(** *** The count and the store *)

Lemma queryCount_apply_op h op :
  queryCount (apply_op h op) = next_count (queryCount h) op.
Proof.
  destruct op; [apply queryCount_incrementCount | apply queryCount_resetCount].
Qed.

Lemma queryCount_run_ops h ops :
  queryCount (run_ops h ops) = count_after (queryCount h) ops.
Proof.
  unfold run_ops, count_after. revert h.
  induction ops as [| op ops IH]; intros h; [reflexivity |].
  cbn [fold_left]. now rewrite IH, queryCount_apply_op.
Qed.

(** X1: the count in memory after any run of increments and resets is
    a function of the count before it alone: two hooks with the same
    count end with the same count, whatever their stores hold and
    whether the calls on them throw. *)
Theorem count_independent_of_store
    (c : Js.number) (st1 st2 : Storage) (ops : list Op) :
  queryCount (run_ops (mkHook c st1) ops)
  = queryCount (run_ops (mkHook c st2) ops)
  ∧ queryCount (run_ops (mkHook c st1) ops) = count_after c ops.
Proof. now rewrite !queryCount_run_ops. Qed.

(** The counts a fresh counter can reach. *)
Lemma count_after_fresh_bounded ops :
  ∃ c, count_after (Js.Int 0) ops = Js.Int c ∧ 0 ≤ c ≤ 2 ^ 53.
Proof.
  unfold count_after.
  assert (H : ∃ c, Js.Int 0 = Js.Int c ∧ 0 ≤ c ≤ 2 ^ 53)
    by (exists 0; split; [reflexivity | lia]).
  revert H. generalize (Js.Int 0).
  induction ops as [| op ops IH]; intros n H; [exact H |].
  cbn [fold_left]. apply IH. destruct H as (c & -> & Hc).
  destruct op; cbn [next_count].
  - rewrite JsFacts.add_one_saturates by lia. eexists. split; [reflexivity |].
    lia.
  - exists 0. split; [reflexivity | lia].
Qed.

Lemma commit_in_step prev next st :
  mode st = Working →
  (items st !! STORAGE_KEY = Some (Js.toString prev)
   ∨ (items st !! STORAGE_KEY = None ∧ next = Js.Int 0
      ∧ Js.Object_is prev next = true)
   ∨ Js.Object_is prev next = false) →
  in_step (commit prev next st).
Proof.
  intros Hmode H. unfold commit, in_step.
  destruct (Js.Object_is prev next) eqn:Hsame; cbn [localStorage queryCount].
  - split; [exact Hmode |].
    destruct H as [H | [(Hnone & -> & _) | H]]; [now left | | discriminate].
    right. split; [exact Hnone |].
    unfold Js.Object_is in Hsame. now apply bool_decide_eq_true in Hsame.
  - unfold persist_effect, setItem. rewrite Hmode. cbn [mode items].
    split; [reflexivity |]. left. apply lookup_insert_eq.
Qed.

Lemma fresh_in_step : in_step (fresh Working).
Proof. split; [reflexivity |]. left. reflexivity. Qed.

Lemma apply_op_in_step h op : in_step h → in_step (apply_op h op).
Proof.
  intros [Hmode Hentry]. destruct h as [c [it m]].
  cbn [localStorage queryCount mode items] in *. subst m.
  destruct op; cbn [apply_op]; unfold incrementCount, resetCount, removeItem;
    cbn [localStorage queryCount mode items].
  - apply commit_in_step; [reflexivity |]. cbn [items].
    destruct Hentry as [H | [H ->]]; [now left |].
    right. right. reflexivity.
  - apply commit_in_step; [reflexivity |]. cbn [items].
    rewrite lookup_delete_eq.
    destruct (Js.Object_is c (Js.Int 0)) eqn:Hsame; [| now right; right].
    right. left. now split.
Qed.

Lemma run_ops_in_step ops : ∀ h, in_step h → in_step (run_ops h ops).
Proof.
  unfold run_ops. induction ops as [| op ops IH]; intros h H; [exact H |].
  cbn [fold_left]. now apply IH, apply_op_in_step.
Qed.

(** A count of at most 2^53 in step with its store is what a hook
    mounted on that store starts from. *)
Lemma mount_in_step h c :
  in_step h → queryCount h = Js.Int c → 0 ≤ c ≤ 2 ^ 53 →
  queryCount (mount (localStorage h)) = Js.Int c.
Proof.
  intros [Hmode Hentry] Hq Hc. rewrite Hq in Hentry.
  destruct Hentry as [Hsome | [Hnone [= ->]]].
  - apply mount_loaded. unfold init_effect, getItem. rewrite Hmode, Hsome.
    rewrite parseInt_toString by done.
    rewrite parseInt_truthy
      by (rewrite parseInt_toString by done; discriminate).
    cbn [Js.isNaN negb andb Js.ge Js.lt].
    assert ((c <? 0) = false) as -> by (apply Z.ltb_ge; lia). reflexivity.
  - apply mount_not_loaded. unfold init_effect, getItem.
    now rewrite Hmode, Hnone.
Qed.

(** X2: on a working store, after any run of increments and resets of a
    fresh counter, a hook mounted on what the store holds starts at the
    count the run ended with. *)
Theorem count_survives_remount (ops : list Op) :
  let h := run_ops (fresh Working) ops in
  queryCount (mount (localStorage h)) = queryCount h.
Proof.
  intros h.
  destruct (count_after_fresh_bounded ops) as (c & Hc & Hbound).
  assert (Hq : queryCount h = Js.Int c).
  { subst h. now rewrite queryCount_run_ops, queryCount_fresh. }
  rewrite Hq. apply mount_in_step; [| exact Hq | exact Hbound].
  apply run_ops_in_step, fresh_in_step.
Qed.

(** *** Loading *)

(** X3: an entry that [parseInt] reads as a number that is not
    negative is loaded as the count when the store can be read, also
    when digits are followed by other characters or preceded by white
    space. *)
Theorem stored_count_loaded (st : Storage) (s : string) :
  mode st ≠ Denied →
  items st !! STORAGE_KEY = Some s →
  Js.ge (Js.parseInt s) (Js.Int 0) = true →
  queryCount (mount st) = Js.parseInt s.
Proof.
  intros Hmode Hs Hge. apply mount_loaded. unfold init_effect, getItem.
  assert (Hnan : Js.parseInt s ≠ Js.NaN)
    by (intros Heq; rewrite Heq in Hge; discriminate).
  destruct (mode st); [| | now destruct Hmode];
    rewrite Hs, (parseInt_truthy _ Hnan), Hge;
    now destruct (Js.parseInt s).
Qed.

Lemma stored_count_loaded_witness :
  queryCount (mount (mkStorage {[ STORAGE_KEY := "  12abc" ]} QuotaExceeded))
  = Js.Int 12.
Proof.
  apply (stored_count_loaded
           (mkStorage {[ STORAGE_KEY := "  12abc" ]} QuotaExceeded) "  12abc");
    [discriminate | reflexivity | reflexivity].
Defined.

(** *** What the hook leaves alone *)

Lemma persist_effect_other c st k :
  k ≠ STORAGE_KEY →
  items (persist_effect c st) !! k = items st !! k
  ∧ mode (persist_effect c st) = mode st.
Proof.
  intros Hk. unfold persist_effect, setItem.
  destruct (mode st) eqn:Hm; cbn [items mode]; try (now split).
  split; [now apply lookup_insert_ne | reflexivity].
Qed.

Lemma commit_other prev next st k :
  k ≠ STORAGE_KEY →
  items (localStorage (commit prev next st)) !! k = items st !! k
  ∧ mode (localStorage (commit prev next st)) = mode st.
Proof.
  intros Hk. unfold commit. destruct (Js.Object_is prev next);
    cbn [localStorage]; [now split | now apply persist_effect_other].
Qed.

Lemma apply_op_other h op k :
  k ≠ STORAGE_KEY →
  items (localStorage (apply_op h op)) !! k = items (localStorage h) !! k
  ∧ mode (localStorage (apply_op h op)) = mode (localStorage h).
Proof.
  intros Hk. destruct op; cbn [apply_op]; unfold incrementCount, resetCount.
  - now apply commit_other.
  - destruct (commit_other (queryCount h) (Js.Int 0)
      match removeItem (localStorage h) STORAGE_KEY with
      | Ok st' => st'
      | Throw => localStorage h
      end k Hk) as [-> ->].
    unfold removeItem. destruct (mode (localStorage h)) eqn:Hm;
      cbn [items mode]; try (now split);
      (split; [now apply lookup_delete_ne | reflexivity]).
Qed.

(** X4: the hook reads and writes one key only: mounting it and any
    run of its operations leave every other entry of the store, and the
    condition of the store, as they were. *)
Theorem other_entries_untouched
    (st : Storage) (ops : list Op) (k : string) :
  k ≠ STORAGE_KEY →
  let h := run_ops (mount st) ops in
  items (localStorage h) !! k = items st !! k
  ∧ mode (localStorage h) = mode st.
Proof.
  intros Hk h. subst h. unfold run_ops.
  assert (Hmount : items (localStorage (mount st)) !! k = items st !! k
                   ∧ mode (localStorage (mount st)) = mode st).
  { unfold mount.
    destruct (persist_effect_other (Js.Int 0) st k Hk) as [Hi Hm].
    destruct (init_effect st) as [count |]; cbn [localStorage];
      [| now split].
    destruct (commit_other (Js.Int 0) count (persist_effect (Js.Int 0) st) k Hk)
      as [-> ->]. now split. }
  revert Hmount. generalize (mount st).
  induction ops as [| op ops IH]; intros h Hh; [exact Hh |].
  cbn [fold_left]. apply IH.
  destruct (apply_op_other h op k Hk) as [-> ->]. exact Hh.
Qed.

Lemma other_entries_untouched_witness :
  let st := mkStorage {[ "theme" := "light"; STORAGE_KEY := "3" ]} Working in
  let h := run_ops (mount st) [Increment; Reset; Increment] in
  items (localStorage h) !! "theme" = Some "light"
  ∧ mode (localStorage h) = Working.
Proof.
  assert (Hk : "theme" ≠ STORAGE_KEY) by discriminate.
  exact (other_entries_untouched
           (mkStorage {[ "theme" := "light"; STORAGE_KEY := "3" ]} Working)
           [Increment; Reset; Increment] "theme" Hk).
Defined.

(** *** The derived values *)

Lemma derived_consistent h :
  Js.ge (queryCount h) (Js.Int 0) = true →
  canMakeQuery h = negb (hasExceededLimit h)
  ∧ ∃ r, remainingQueries h = Js.Int r ∧ 0 ≤ r ≤ 20
         ∧ (r = 0 ↔ hasExceededLimit h = true).
Proof.
  intros Hge. unfold canMakeQuery, hasExceededLimit, remainingQueries,
    QUERY_LIMIT.
  apply JsFacts.ge_zero_cases in Hge as [-> | [-> | (z & -> & Hz)]].
  - split; [reflexivity |]. exists 20. repeat split; try lia; discriminate.
  - split; [reflexivity |]. exists 0. repeat split; lia.
  - split; [cbn; now rewrite negb_involutive |].
    destruct (Z.lt_ge_cases z 20) as [Hlt | Hge].
    + destruct (derived_at z (mkHook (Js.Int z) (mkStorage ∅ Working)))
        as (Hr & He & _); [reflexivity | assert (20 < 2 ^ 53) by reflexivity; lia |].
      unfold remainingQueries, hasExceededLimit, QUERY_LIMIT in Hr, He.
      cbn [queryCount] in Hr, He. rewrite Hr, He.
      exists (Z.max 0 (20 - z)).
      split; [reflexivity | split; [lia | split]].
      * intros H0. apply bool_decide_eq_true. lia.
      * intros H0. apply bool_decide_eq_true in H0. lia.
    + exists 0. split; [| split; [lia |]].
      * unfold Js.sub. assert (Hneg : Js.neg (Js.Int z) = Js.Int (- z))
          by (destruct z; [lia | reflexivity | reflexivity]).
        rewrite Hneg. cbn [Js.add].
        destruct (F_nonpos (20 + - z)) as [-> | (m & -> & Hm)];
          [lia | reflexivity |].
        unfold Js.Math_max.
        assert (Hlt : Js.lt (Js.Int 0) (Js.Int m) = false)
          by (apply Z.ltb_ge, Hm).
        rewrite Hlt. now destruct m.
      * split; [intros _ | reflexivity]. cbn.
        apply negb_true_iff, Z.ltb_ge, Hge.
Qed.

(** X5: in every state the hook can be in (mounted on any store, after
    any run of operations), [canMakeQuery] is the negation of
    [hasExceededLimit], and [remainingQueries] is an integer between 0
    and 20 that is 0 exactly when the limit is exceeded. *)
Theorem derived_values_consistent (st : Storage) (ops : list Op) :
  let h := run_ops (mount st) ops in
  canMakeQuery h = negb (hasExceededLimit h)
  ∧ ∃ r, remainingQueries h = Js.Int r ∧ 0 ≤ r ≤ 20
         ∧ (r = 0 ↔ hasExceededLimit h = true).
Proof.
  intros h. apply derived_consistent.
  apply run_ops_nonneg, queryCount_mount_nonneg.
Qed.

(** X6: [incrementCount] never refuses: [n] increments of a fresh
    counter give a count of [n], beyond the limit of 20 too, up to 2^53,
    where the count stays. *)
Theorem increments_not_capped (m : Mode) (n : nat) :
  queryCount (Nat.iter n incrementCount (fresh m))
  = Js.Int (Z.min (Z.of_nat n) (2 ^ 53)).
Proof. apply queryCount_iter. Qed.

End QueryLimitMore.

Module ChatMore.
Import LocalStorage QueryLimit Chat QueryLimitFacts ChatFacts JsToString.
Import QueryCounter ChatRuns.

(** *** The form and the limit *)

(** X7: a guest who has completed [n] exchanges since a fresh start has
    the next submission of the form forwarded to the chat transport
    when [n < 20] and answered with the signup dialog when [n >= 20]. *)
Theorem guest_allowance_is_twenty (m : Mode) (n : nat) (dialog : bool) :
  let p := mkPage false (Nat.iter n incrementCount (fresh m)) dialog in
  step p Submit
  = if bool_decide (Z.of_nat n < 20)
    then (p, [PreventDefault; HandleSubmit])
    else (mkPage false (queryLimitContext p) true, [PreventDefault]).
Proof.
  intros p. cbn [step]. unfold handleChatSubmit.
  cbn [isAuthenticated negb andb queryLimitContext p].
  destruct (derived_at (Z.min (Z.of_nat n) (2 ^ 53))
              (Nat.iter n incrementCount (fresh m))) as (_ & _ & Hc);
    [apply queryCount_iter | lia |].
  rewrite Hc.
  assert (H53 : 20 < 2 ^ 53) by reflexivity.
  rewrite (bool_decide_ext _ (Z.of_nat n < 20)) by lia.
  now destruct (bool_decide (Z.of_nat n < 20)).
Qed.

(** X8: while the user is authenticated, no run of events of the page
    (submissions, chunks, ends and failures of exchanges, the dialog
    opening or closing) changes the counter or calls [incrementCount],
    every submission of the form is forwarded to the chat transport, and
    no submission opens the signup dialog: the flag of the dialog ends
    as the dialog itself last asked for through [onOpenChange], or as it
    was when the dialog asked for nothing. *)
Theorem authenticated_never_limited (p : Page) (evs : list Event) :
  isAuthenticated p = true →
  forallb chat_event evs = true →
  let '(p', calls) := run p evs in
  isAuthenticated p' = true
  ∧ queryLimitContext p' = queryLimitContext p
  ∧ showSignupDialog p' = dialog_after (showSignupDialog p) evs
  ∧ calls_of IncrementCount calls = 0%nat
  ∧ calls_of HandleSubmit calls = submissions evs.
Proof.
  intros Hauth. revert p Hauth.
  induction evs as [| ev evs IH]; intros p Hauth Hevs; [now cbn |].
  cbn [forallb] in Hevs. apply andb_true_iff in Hevs as [Hev Hevs].
  cbn [run].
  assert (Hstep : isAuthenticated (fst (step p ev)) = true
                  ∧ queryLimitContext (fst (step p ev)) = queryLimitContext p
                  ∧ showSignupDialog (fst (step p ev))
                    = dialog_after (showSignupDialog p) [ev]
                  ∧ calls_of IncrementCount (snd (step p ev)) = 0%nat
                  ∧ calls_of HandleSubmit (snd (step p ev))
                    = submissions [ev]).
  { destruct ev as [| text | | e | next | next]; cbn [step];
      try discriminate.
    - unfold handleChatSubmit. rewrite Hauth. now cbn.
    - now cbn.
    - unfold onFinish. rewrite Hauth. now cbn.
    - destruct (onError_keeps_count e p) as [Hp Hc].
      destruct (onError e p) as [p' calls] eqn:Herr. cbn in Hp, Hc. subst p'.
      cbn [fst snd].
      split; [exact Hauth | split; [reflexivity | split; [reflexivity |]]].
      split; [exact Hc |].
      revert Herr. unfold onError.
      destruct e as [| msg [r |]]; [intros [= <-]; reflexivity | |
        intros [= <-]; reflexivity].
      case_bool_decide; intros [= <-]; reflexivity.
    - now cbn. }
  destruct (step p ev) as [p1 c1]. cbn [fst snd] in Hstep.
  destruct Hstep as (Ha & Hq & Hd & Hinc & Hsub).
  specialize (IH p1 Ha Hevs). destruct (run p1 evs) as [p2 c2].
  destruct IH as (Ha2 & Hq2 & Hd2 & Hinc2 & Hsub2).
  split; [exact Ha2 |]. split; [congruence |].
  split; [rewrite Hd2, Hd; reflexivity |].
  unfold calls_of in *.
  rewrite !filter_app, !length_app, Hinc, Hinc2, Hsub, Hsub2.
  split; [reflexivity |]. unfold submissions.
  change (ev :: evs) with ([ev] ++ evs).
  now rewrite List.filter_app, length_app.
Qed.

(** A signed-in user with the dialog open who submits, closes the
    dialog, has one exchange completed and submits again. *)
Lemma authenticated_never_limited_witness :
  let p := mkPage true (Nat.iter 25 incrementCount (fresh Working)) true in
  let '(p', calls) :=
    run p (Submit :: DialogOpenChange false
           :: exchange ["a"; "b"] Completed ++ [Submit]) in
  isAuthenticated p' = true
  ∧ queryLimitContext p' = queryLimitContext p
  ∧ showSignupDialog p' = false
  ∧ calls_of IncrementCount calls = 0%nat
  ∧ calls_of HandleSubmit calls = 2%nat.
Proof.
  apply (authenticated_never_limited
           (mkPage true (Nat.iter 25 incrementCount (fresh Working)) true)
           (Submit :: DialogOpenChange false
            :: exchange ["a"; "b"] Completed ++ [Submit]));
    reflexivity.
Defined.

(** *** The counter on the page *)

Lemma toString_upto_20 r : 0 ≤ r ≤ 20 → Js.toString (Js.Int r) = pretty r.
Proof.
  intros Hr. destruct (Z.eq_dec r 0) as [-> | Hnz]; [reflexivity |].
  apply toString_small. assert (20 < 2 ^ 53) by reflexivity. lia.
Qed.

(** X9: what [QueryCounter] shows a guest after [n] completed exchanges
    from a fresh start: "[20 - n] queries left" (0 from the 20th on,
    and "1 query left" at [n = 19]), in the variant "secondary" up to 9
    exchanges, "default" from 10 to 14 and "destructive" from 15 on, with
    [min n 20] queries used. *)
Theorem counter_display (m : Mode) (n : nat) :
  let r := remainingQueries (Nat.iter n incrementCount (fresh m)) in
  badge_text r
  = pretty (Z.max 0 (20 - Z.of_nat n)) +:+ " " +:+
    (if bool_decide (n = 19%nat) then "query" else "queries") +:+ " left"
  ∧ getVariant r
    = (if bool_decide (Z.of_nat n < 10) then "secondary"
       else if bool_decide (Z.of_nat n < 15) then "default"
       else "destructive")
  ∧ usedQueries r = Js.Int (Z.min (Z.of_nat n) 20).
Proof.
  intros r. subst r.
  destruct (derived_at (Z.min (Z.of_nat n) (2 ^ 53))
              (Nat.iter n incrementCount (fresh m))) as (Hr & _ & _);
    [apply queryCount_iter | lia |].
  assert (H53 : 20 < 2 ^ 53) by reflexivity.
  replace (Z.max 0 (20 - Z.of_nat n `min` 2 ^ 53))
    with (Z.max 0 (20 - Z.of_nat n)) in Hr by lia.
  rewrite Hr. set (x := Z.max 0 (20 - Z.of_nat n)).
  assert (Hx : 0 ≤ x ≤ 20) by lia.
  split; [| split].
  - unfold badge_text. rewrite toString_upto_20 by done.
    do 2 f_equal.
    assert (Heq : strict_equals (Js.Int x) (Js.Int 1) = bool_decide (x = 1)).
    { unfold strict_equals. destruct x; try reflexivity.
      apply bool_decide_ext. split; congruence. }
    rewrite Heq. rewrite (bool_decide_ext (x = 1) (n = 19%nat)) by lia.
    reflexivity.
  - unfold getVariant. cbn [Js.lt].
    destruct (Z.ltb_spec 10 x), (Z.ltb_spec 5 x);
      repeat case_bool_decide; try reflexivity; lia.
  - unfold usedQueries, totalQueries, Js.sub.
    assert (Hneg : Js.add (Js.Int 20) (Js.neg (Js.Int x)) = Js.Int (20 - x)).
    { destruct x as [| x' | x']; [reflexivity | | lia].
      cbn [Js.neg Js.add]. rewrite JsFacts.F_exact by lia. f_equal. }
    rewrite Hneg. f_equal. lia.
Qed.

End ChatMore.

Module MessagesMore.
Import ChatMessages.

Lemma findIndex_None p l :
  findIndex p l = None → ∀ m, m ∈ l → p m = false.
Proof.
  induction l as [| x l IH]; intros H m Hin; [by apply elem_of_nil in Hin |].
  cbn [findIndex] in H. destruct (p x) eqn:Hx; [discriminate |].
  destruct (findIndex p l); [discriminate |].
  apply elem_of_cons in Hin as [-> | Hin]; [exact Hx | now apply IH].
Qed.

Lemma findIndex_Some p l i :
  findIndex p l = Some i →
  ∃ m rest, l = take i l ++ m :: rest ∧ p m = true
            ∧ ∀ m', m' ∈ take i l → p m' = false.
Proof.
  revert i. induction l as [| x l IH]; intros i H; [discriminate |].
  cbn [findIndex] in H. destruct (p x) eqn:Hx.
  - injection H as <-. exists x, l. cbn. split; [reflexivity |].
    split; [exact Hx |]. intros m' Hin. by apply elem_of_nil in Hin.
  - destruct (findIndex p l) as [j |] eqn:Hj; [| discriminate].
    injection H as <-. destruct (IH j eq_refl) as (m & rest & Hl & Hm & Hpre).
    exists m, rest. cbn [take app]. split; [now rewrite <- Hl |].
    split; [exact Hm |]. intros m' Hin.
    apply elem_of_cons in Hin as [-> | Hin]; [exact Hx | now apply Hpre].
Qed.

(** X10: editing a sent message cuts the conversation just before the
    first message of the user whose content is the old content, whatever
    message was clicked (the [id] is not looked at), and appends the new
    content as a message of the user; every message before the cut is
    kept and none of them is a message of the user with the old
    content.  When no message of the user has the old content, nothing
    is called. *)
Theorem edit_cuts_at_first_match
    (id oldContent newContent : string) (messages : list Message) :
  match updateMessageContent id oldContent newContent messages with
  | [] =>
      ∀ m, m ∈ messages → ¬ (role m = "user" ∧ content m = oldContent)
  | calls =>
      ∃ kept m rest,
        messages = kept ++ m :: rest
        ∧ role m = "user" ∧ content m = oldContent
        ∧ (∀ m', m' ∈ kept →
                 ¬ (role m' = "user" ∧ content m' = oldContent))
        ∧ calls = [SetMessages kept; Append "user" newContent]
  end
  ∧ ∀ id', updateMessageContent id' oldContent newContent messages
           = updateMessageContent id oldContent newContent messages.
Proof.
  split; [| reflexivity]. unfold updateMessageContent.
  set (p := λ m, bool_decide (role m = "user")
                 && bool_decide (content m = oldContent)).
  assert (Hp : ∀ m, p m = true ↔ role m = "user" ∧ content m = oldContent).
  { intros m. unfold p. rewrite andb_true_iff, !bool_decide_eq_true.
    reflexivity. }
  destruct (findIndex p messages) as [i |] eqn:Hfind.
  - destruct (findIndex_Some _ _ _ Hfind) as (m & rest & Hl & Hm & Hpre).
    exists (take i messages), m, rest.
    apply Hp in Hm as [Hrole Hcontent].
    repeat split; try done.
    intros m' Hin Hm'. apply Hp in Hm'. rewrite (Hpre m' Hin) in Hm'.
    discriminate.
  - intros m Hin Hm. apply Hp in Hm.
    rewrite (findIndex_None _ _ Hfind m Hin) in Hm. discriminate.
Qed.

End MessagesMore.

Module AuthMore.
Import Auth AuthFacts Examples PageExamples.

(** *** Logging out *)

Lemma remove_cookies_other c k :
  k ∉ credentials → remove_cookies c !! k = c !! k.
Proof.
  intros Hk. unfold remove_cookies.
  rewrite !lookup_delete_ne; [reflexivity | ..];
    intros <-; apply Hk; unfold credentials; set_solver.
Qed.

Lemma remove_cookies_idemp c :
  remove_cookies (remove_cookies c) = remove_cookies c.
Proof.
  apply map_eq. intros k.
  destruct (decide (k ∈ credentials)) as [Hin | Hout].
  - now rewrite !remove_cookies_no_credentials.
  - now rewrite !remove_cookies_other.
Qed.

(** X11: from any state, [logout] ends with the session empty and not
    authenticated, the five cookies of the session removed and every
    other cookie left alone, and one redirect to the sign-in page; it
    never throws; and a second [logout] changes neither the session nor
    the cookies. *)
Theorem logout_clears_everything (w : World) :
  let '(r, w1) := logout w in
  let '(r2, w2) := logout w1 in
  r = Return ()
  ∧ session w1 = logged_out
  ∧ no_credentials (cookies w1)
  ∧ (∀ k, k ∉ credentials → cookies w1 !! k = cookies w !! k)
  ∧ trace w1 = trace w ++ [RouterPush "/signin"]
  ∧ r2 = Return ()
  ∧ session w2 = session w1
  ∧ cookies w2 = cookies w1.
Proof.
  rewrite logout_run, logout_run. cbn [session cookies trace].
  repeat split.
  - apply remove_cookies_no_credentials.
  - intros k. apply remove_cookies_other.
  - apply remove_cookies_idemp.
Qed.

(** *** Refreshing *)

(** X12: with a refresh token in the render, [refreshAccessToken] makes
    one exchange and never throws.  On an answer with data, the access
    and refresh token of the answer replace those of the state and of the
    cookies, together, and the new access token is returned; on a 401 or
    403 the session is logged out; on any other failure the state and
    the cookies are left exactly as they were.  In the last two cases
    nothing is returned. *)
Theorem refresh_all_or_nothing
    (env : Env) (render : Session) (w : World) (rt : string) :
  truthy (refreshToken render) = Some rt →
  let '(r, w') := refreshAccessToken env render w in
  refresh_exchanges (trace w') = refresh_exchanges (trace w) ++ [rt]
  ∧ match refresh_endpoint env rt with
    | Ok data =>
        r = Return (access_token data)
        ∧ accessToken (session w') = access_token data
        ∧ refreshToken (session w') = refresh_token data
        ∧ cookies w' !! "accessToken"
          = Some (default "undefined" (access_token data))
        ∧ cookies w' !! "refreshToken"
          = Some (default "undefined" (refresh_token data))
        ∧ isAuthenticated (session w') = isAuthenticated (session w)
        ∧ role (session w') = role (session w)
    | reply =>
        r = Return None
        ∧ if unauthorized reply
          then session w' = logged_out ∧ no_credentials (cookies w')
          else session w' = session w ∧ cookies w' = cookies w
    end.
Proof.
  intros Hrt.
  destruct (refresh_endpoint env rt) as [data | status |] eqn:Hreply.
  - rewrite (refreshAccessToken_ok _ _ _ _ _ Hrt Hreply).
    cbn [session cookies trace accessToken refreshToken isAuthenticated role].
    split; [solve_trace |]. repeat split.
    + rewrite lookup_insert_ne by discriminate. apply lookup_insert_eq.
    + apply lookup_insert_eq.
  - rewrite (refreshAccessToken_failed _ _ _ _ Hrt)
      by (intros data; rewrite Hreply; discriminate).
    rewrite Hreply. destruct (unauthorized (HttpError status));
      cbn [session cookies trace]; (split; [solve_trace |]);
      repeat split. apply remove_cookies_no_credentials.
  - rewrite (refreshAccessToken_failed _ _ _ _ Hrt)
      by (intros data; rewrite Hreply; discriminate).
    rewrite Hreply. cbn [unauthorized session cookies trace].
    split; [solve_trace |]. repeat split.
Qed.

Lemma refresh_all_or_nothing_witness :
  let '(r, w') :=
    refreshAccessToken server (render_of (Some "expired") (Some "good-refresh"))
      (world_of (render_of (Some "expired") (Some "good-refresh")) ∅) in
  r = Return (Some "valid")
  ∧ accessToken (session w') = Some "valid"
  ∧ refreshToken (session w') = Some "next-refresh"
  ∧ cookies w' !! "accessToken" = Some "valid"
  ∧ cookies w' !! "refreshToken" = Some "next-refresh".
Proof.
  pose proof (refresh_all_or_nothing server
    (render_of (Some "expired") (Some "good-refresh"))
    (world_of (render_of (Some "expired") (Some "good-refresh")) ∅)
    "good-refresh" eq_refl) as H.
  destruct (refreshAccessToken _ _ _) as [r w'].
  destruct H as (_ & Hr & Ha & Hrt & Hca & Hcr & _).
  repeat split; assumption.
Defined.

(** *** The interceptor, whatever the token *)

(** What the interceptor can do, in all cases: it sends nothing
    itself, makes at most one refresh exchange (with the refresh token
    of the render), and either returns the configuration with at most
    the [Authorization] header changed or throws the cancellation with
    the session logged out. *)
Lemma requestInterceptor_outcome env render config w :
  let '(r, w') := requestInterceptor env render config w in
  dispatched (trace w') = dispatched (trace w)
  ∧ (∃ rts, refresh_exchanges (trace w') = refresh_exchanges (trace w) ++ rts
            ∧ (rts = [] ∨ ∃ rt, rts = [rt]
                                ∧ truthy (refreshToken render) = Some rt))
  ∧ match r with
    | Return config' =>
        url config' = url config
        ∧ ∀ k, k ≠ "Authorization" → headers config' !! k = headers config !! k
    | Raise e =>
        e = Cancel "Invalid token. Please log in again."
        ∧ session w' = logged_out
        ∧ no_credentials (cookies w')
    end.
Proof.
  unfold requestInterceptor.
  destruct (truthy (accessToken render)) as [token |];
    [| split; [reflexivity | split; [exists []; rewrite app_nil_r; auto |
                                     now split]]].
  run_monad.
  destruct (jwtDecode env token) as [payload |].
  2: { rewrite logout_run. cbn [session cookies trace].
       split; [solve_trace |].
       split; [exists []; split; [solve_trace | now left] |].
       split; [reflexivity | split; [reflexivity |]].
       apply remove_cookies_no_credentials. }
  destruct (expired payload (currentTime env)).
  2: { split; [reflexivity |].
       split; [exists []; rewrite app_nil_r; auto |].
       split; [reflexivity |]. intros k Hk. cbn [headers set_header].
       now apply lookup_insert_ne. }
  destruct (truthy (refreshToken render)) as [rt |] eqn:Hrt.
  2: { rewrite (refreshAccessToken_none _ _ _ Hrt). cbn [truthy].
       rewrite !logout_run. cbn [session cookies trace].
       split; [solve_trace |].
       split; [exists []; split; [solve_trace | now left] |].
       split; [reflexivity | split; [reflexivity |]].
       apply remove_cookies_no_credentials. }
  assert (Hone : ∀ t, refresh_exchanges t = refresh_exchanges (trace w) ++ [rt] →
    ∃ rts, refresh_exchanges t = refresh_exchanges (trace w) ++ rts
           ∧ (rts = [] ∨ ∃ rt0, rts = [rt0] ∧ Some rt = Some rt0)).
  { intros t Ht. exists [rt]. split; [exact Ht | right; eauto]. }
  destruct (refresh_endpoint env rt) as [data | status |] eqn:Hreply.
  - rewrite (refreshAccessToken_ok _ _ _ _ _ Hrt Hreply).
    destruct (truthy (access_token data)) as [t |].
    + cbn [session cookies trace].
      split; [solve_trace | split; [apply Hone; solve_trace |]].
      split; [reflexivity |]. intros k Hk. cbn [headers set_header].
      now apply lookup_insert_ne.
    + rewrite !logout_run. cbn [session cookies trace].
      split; [solve_trace | split; [apply Hone; solve_trace |]].
      split; [reflexivity | split; [reflexivity |]].
      apply remove_cookies_no_credentials.
  - rewrite (refreshAccessToken_failed _ _ _ _ Hrt)
      by (intros data; rewrite Hreply; discriminate).
    rewrite Hreply. cbn [truthy]. rewrite !logout_run.
    destruct (unauthorized (HttpError status)); cbn [session cookies trace];
      (split; [solve_trace | split; [apply Hone; solve_trace |]]);
      (split; [reflexivity | split; [reflexivity |]]);
      apply remove_cookies_no_credentials.
  - rewrite (refreshAccessToken_failed _ _ _ _ Hrt)
      by (intros data; rewrite Hreply; discriminate).
    rewrite Hreply. cbn [truthy unauthorized]. rewrite !logout_run.
    cbn [session cookies trace].
    split; [solve_trace | split; [apply Hone; solve_trace |]].
    split; [reflexivity | split; [reflexivity |]].
    apply remove_cookies_no_credentials.
Qed.

(** X13: for every token, clock and server, a request through
    [axiosInstance] makes at most one refresh exchange and ends in one
    of two ways: the request is sent once, with the address and every
    header but [Authorization] as the caller gave them; or nothing is
    sent, the call is cancelled and the session is logged out with its
    cookies removed. *)
Theorem request_sent_or_logged_out
    (env : Env) (render : Session) (config : Config) (w : World) :
  let '(r, w') := request env render config w in
  (length (refresh_exchanges (trace w'))
   ≤ S (length (refresh_exchanges (trace w))))%nat
  ∧ ((r = Return ()
      ∧ ∃ config',
          dispatched (trace w') = dispatched (trace w) ++ [config']
          ∧ url config' = url config
          ∧ ∀ k, k ≠ "Authorization" →
                 headers config' !! k = headers config !! k)
     ∨ cancelled_and_logged_out w r w').
Proof.
  unfold request. run_monad.
  pose proof (requestInterceptor_outcome env render config w) as H.
  destruct (requestInterceptor env render config w) as [[config' | e] w1].
  - destruct H as (Hd & (rts & Hrts & Hlen) & Hurl & Hheaders).
    cbn [session cookies trace]. split.
    + rewrite refresh_exchanges_app. cbn. rewrite app_nil_r, Hrts, length_app.
      destruct Hlen as [-> | (rt & -> & _)]; cbn; lia.
    + left. split; [reflexivity |]. exists config'.
      rewrite dispatched_app, Hd. cbn. auto.
  - destruct H as (Hd & (rts & Hrts & Hlen) & -> & Hs & Hc). split.
    + rewrite Hrts, length_app.
      destruct Hlen as [-> | (rt & -> & _)]; cbn; lia.
    + right. repeat split; assumption.
Qed.

(** X14: a token whose payload has no expiry claim, or an expiry claim
    that is falsy (0, -0 or NaN), is never taken as expired, whatever
    the clock says: no refresh is attempted and the request goes out
    once, as the configuration of the caller with its [Authorization]
    header set to "Bearer " followed by that token and nothing else
    changed. *)
Theorem token_without_expiry_never_refreshed
    (env : Env) (render : Session) (config : Config) (w : World)
    (token : string) (payload : JwtPayload) :
  truthy (accessToken render) = Some token →
  jwtDecode env token = Some payload →
  match exp payload with
  | None => True
  | Some e => Double.truthy e = false
  end →
  ∃ config',
    request env render config w
    = (Return (),
       mkWorld (session w) (cookies w) (trace w ++ [Dispatch config']))
    ∧ url config' = url config
    ∧ headers config' !! "Authorization" = Some ("Bearer " +:+ token)
    ∧ ∀ k, k ≠ "Authorization" →
           headers config' !! k = headers config !! k.
Proof.
  intros Htok Hdec Hexp.
  exists (set_header config "Authorization" ("Bearer " +:+ token)).
  split; [| apply set_header_bearer].
  unfold request, requestInterceptor.
  rewrite Htok. run_monad. rewrite Hdec.
  assert (expired payload (currentTime env) = false) as ->;
    [| reflexivity].
  unfold expired. destruct (exp payload) as [e |]; [| reflexivity].
  now rewrite Hexp.
Qed.

Lemma token_without_expiry_never_refreshed_witness :
  (∃ config',
     request server2 (render_of (Some "no-exp") (Some "good-refresh"))
       get_profile (world_of logged_out ∅)
     = (Return (), mkWorld logged_out ∅ [Dispatch config'])
     ∧ url config' = url get_profile
     ∧ headers config' !! "Authorization" = Some "Bearer no-exp"
     ∧ ∀ k, k ≠ "Authorization" →
            headers config' !! k = headers get_profile !! k)
  ∧ (∃ config',
       request server2 (render_of (Some "epoch") (Some "good-refresh"))
         get_profile (world_of logged_out ∅)
       = (Return (), mkWorld logged_out ∅ [Dispatch config'])
       ∧ url config' = url get_profile
       ∧ headers config' !! "Authorization" = Some "Bearer epoch"
       ∧ ∀ k, k ≠ "Authorization" →
              headers config' !! k = headers get_profile !! k).
Proof.
  split.
  - exact (token_without_expiry_never_refreshed server2
      (render_of (Some "no-exp") (Some "good-refresh")) get_profile
      (world_of logged_out ∅) "no-exp" (mkJwtPayload None)
      eq_refl eq_refl I).
  - exact (token_without_expiry_never_refreshed server2
      (render_of (Some "epoch") (Some "good-refresh")) get_profile
      (world_of logged_out ∅) "epoch"
      (mkJwtPayload (Some (Double.of_Z 0))) eq_refl eq_refl eq_refl).
Defined.

(** *** Starting up *)

(** X15: when one of the cookies [accessToken], [refreshToken] and
    [email] is missing or empty, [checkAuthStatus] asks the server
    nothing: it marks the session as not authenticated with no role,
    leaves the cookies and the other state variables as they are, and
    redirects to the sign-in page exactly when the current path is
    [/chat] or [/profile]. *)
Theorem startup_without_cookies (env : Env) (render : Session) (w : World) :
  truthy (cookies w !! "accessToken") = None
  ∨ truthy (cookies w !! "refreshToken") = None
  ∨ truthy (cookies w !! "email") = None →
  checkAuthStatus env render w
  = (Return (),
     mkWorld
       (mkSession false (email (session w)) (firstName (session w))
          (lastName (session w)) None false (accessToken (session w))
          (refreshToken (session w)))
       (cookies w)
       (trace w ++
        (if includes protectedRoutes (pathname env)
         then [RouterPush "/signin"] else []))).
Proof.
  intros H. destruct w as [[] c t]. cbn [cookies] in H.
  unfold checkAuthStatus. exec.
  assert (Hmatch :
    match truthy (c !! "accessToken"), truthy (c !! "refreshToken"),
          truthy (c !! "email") with
    | Some _, Some _, Some _ => False
    | _, _, _ => True
    end).
  { destruct H as [-> | [-> | ->]]; repeat case_match; done. }
  destruct (truthy (c !! "accessToken")), (truthy (c !! "refreshToken")),
    (truthy (c !! "email")); try destruct Hmatch;
    destruct (includes protectedRoutes (pathname env)); exec;
    now rewrite ?app_nil_r.
Qed.

Lemma startup_without_cookies_witness :
  checkAuthStatus server2 logged_out
    (world_of logged_out {[ "accessToken" := "valid"; "email" := "a@b.in" ]})
  = (Return (),
     mkWorld logged_out {[ "accessToken" := "valid"; "email" := "a@b.in" ]}
       [RouterPush "/signin"]).
Proof.
  exact (startup_without_cookies server2 logged_out
    (world_of logged_out {[ "accessToken" := "valid"; "email" := "a@b.in" ]})
    (or_intror (or_introl eq_refl))).
Defined.

(** X16: at startup with the three cookies present, when the role lookup
    answers 401 or 403 and the render that made the effect holds no
    refresh token (as the first render does, whose state is still
    empty), no refresh exchange is attempted, although the cookie holds
    a refresh token: the user is logged out and sent to the sign-in
    page. *)
Theorem startup_unauthorized_logs_out
    (env : Env) (render : Session) (w : World) (cat crt em : string) :
  truthy (cookies w !! "accessToken") = Some cat →
  truthy (cookies w !! "refreshToken") = Some crt →
  truthy (cookies w !! "email") = Some em →
  unauthorized (me_endpoint env cat) = true →
  truthy (refreshToken render) = None →
  checkAuthStatus env render w
  = (Return (),
     mkWorld logged_out (remove_cookies (cookies w))
       (trace w ++ [GetMe cat; RouterPush "/signin"])).
Proof.
  intros Hcat Hcrt Hem Hun Hrt. destruct w as [[] c t].
  cbn [cookies] in Hcat, Hcrt, Hem.
  unfold checkAuthStatus. exec. rewrite Hcat, Hcrt, Hem. exec.
  destruct (me_endpoint env cat) as [data | status |] eqn:Hme;
    [discriminate | | discriminate].
  rewrite Hun. exec.
  rewrite (refreshAccessToken_none _ _ _ Hrt). cbn [truthy].
  rewrite logout_run. exec. now rewrite <- app_assoc.
Qed.

Lemma startup_unauthorized_logs_out_witness :
  checkAuthStatus server2 logged_out (world_of logged_out cookies_stale)
  = (Return (),
     mkWorld logged_out {[ "theme" := "light" ]}
       [GetMe "stale"; RouterPush "/signin"]).
Proof.
  exact (startup_unauthorized_logs_out server2 logged_out
    (world_of logged_out cookies_stale) "stale" "good-refresh" "a@b.in"
    eq_refl eq_refl eq_refl eq_refl eq_refl).
Defined.

(** *** Logging in *)

Ltac exec_all :=
  lazy beta iota zeta delta
    [mbind M_bind mret M_ret try_catch throw emit set_state router_push
     Cookies_get Cookies_set Cookies_remove get_me
     setIsAuthenticated setAccessToken setRefreshToken setEmail setFirstName
     setLastName setRole setIsAdmin
     session cookies trace isAuthenticated email firstName lastName role
     isAdmin accessToken refreshToken
     refreshAccessToken logout clearAuthAndRedirect set_role_of fst snd].

(** One more answer of the environment looked at. *)
Ltac branch :=
  match goal with
  | |- context [me_endpoint ?e ?t] =>
      destruct (me_endpoint e t) as [? | ? |] eqn:?
  | |- context [refresh_endpoint ?e ?t] =>
      destruct (refresh_endpoint e t) as [? | ? |] eqn:?
  | |- context [unauthorized ?r] => destruct (unauthorized r) eqn:?
  | |- context [truthy ?x] => destruct (truthy x) eqn:?
  | |- context [includes ?l ?x] => destruct (includes l x) eqn:?
  end.

Lemma admin_of_role (u : string) :
  bool_decide (u = "admin") = bool_decide (Some u = Some "admin").
Proof. apply bool_decide_ext. split; congruence. Qed.

(** X17: [isAdmin] follows [role] on every path: after [login] and after
    [checkAuthStatus], whatever the cookies, the render and the answers
    of the server, [isAdmin] is true exactly when [role] is "admin". *)
Theorem isAdmin_follows_role (env : Env) (render : Session) (w : World) :
  (∀ accessToken' refreshToken' email' firstName' lastName',
     let w' := snd (login env render accessToken' refreshToken' email'
                      firstName' lastName' w) in
     isAdmin (session w') = bool_decide (role (session w') = Some "admin"))
  ∧ (let w' := snd (checkAuthStatus env render w) in
     isAdmin (session w') = bool_decide (role (session w') = Some "admin")).
Proof.
  destruct w as [[] c t]. split.
  - intros at' rt' em' fn' ln'. unfold login. exec_all.
    repeat (branch; exec_all); try reflexivity; apply admin_of_role.
  - unfold checkAuthStatus. exec_all.
    repeat (branch; exec_all); try reflexivity; apply admin_of_role.
Qed.

(** X18: when the role lookup of [login] answers 401 or 403 and the
    render holds no refresh token (as when logging in from a logged-out
    state), no refresh exchange is attempted and, unlike at startup, the
    user is not logged out: the session stays authenticated with the
    tokens just given, the role "user", and the user is sent to the
    chat. *)
Theorem login_unauthorized_stays_in
    (env : Env) (render : Session) (w : World)
    (accessToken' refreshToken' email' firstName' lastName' : string) :
  unauthorized (me_endpoint env accessToken') = true →
  truthy (refreshToken render) = None →
  let '(r, w') :=
    login env render accessToken' refreshToken' email' firstName'
      lastName' w in
  r = Return ()
  ∧ session w' =
      mkSession true (Some email') (Some firstName') (Some lastName')
        (Some "user") false (Some accessToken') (Some refreshToken')
  ∧ cookies w' !! "accessToken" = Some accessToken'
  ∧ cookies w' !! "refreshToken" = Some refreshToken'
  ∧ trace w' = trace w ++ [GetMe accessToken'; RouterPush "/chat"].
Proof.
  intros Hun Hrt. destruct w as [[] c t]. unfold login. exec.
  destruct (me_endpoint env accessToken') as [data | status |] eqn:Hme;
    [discriminate | | discriminate].
  rewrite Hun. exec. rewrite (refreshAccessToken_none _ _ _ Hrt).
  cbn [truthy]. exec. repeat split.
  - repeat (rewrite lookup_insert_ne by discriminate). apply lookup_insert_eq.
  - repeat (rewrite lookup_insert_ne by discriminate). apply lookup_insert_eq.
  - now rewrite <- app_assoc.
Qed.

Lemma login_unauthorized_stays_in_witness :
  let '(r, w') :=
    login server2 logged_out "stale" "good-refresh" "a@b.in" "A" "B"
      (world_of logged_out ∅) in
  r = Return ()
  ∧ session w' =
      mkSession true (Some "a@b.in") (Some "A") (Some "B") (Some "user")
        false (Some "stale") (Some "good-refresh")
  ∧ cookies w' !! "accessToken" = Some "stale"
  ∧ cookies w' !! "refreshToken" = Some "good-refresh"
  ∧ trace w' = [GetMe "stale"; RouterPush "/chat"].
Proof.
  apply (login_unauthorized_stays_in server2 logged_out
    (world_of logged_out ∅) "stale" "good-refresh" "a@b.in" "A" "B");
    reflexivity.
Defined.

(** X19: when the role lookup of [login] answers 401 or 403 and the
    render holds a refresh token, the exchange is made with that token,
    the one of the render, not with the refresh token just given to
    [login]; when it returns an access token and the lookup with it
    succeeds, the session ends with the pair of the exchange, not the
    pair given to [login], and with the role of the second lookup. *)
Theorem login_refreshes_with_token_of_render
    (env : Env) (render : Session) (w : World)
    (accessToken' refreshToken' email' firstName' lastName' : string)
    (rt t : string) (data : RefreshData) (me : MeData) :
  unauthorized (me_endpoint env accessToken') = true →
  truthy (refreshToken render) = Some rt →
  refresh_endpoint env rt = Ok data →
  truthy (access_token data) = Some t →
  me_endpoint env t = Ok me →
  let '(r, w') :=
    login env render accessToken' refreshToken' email' firstName'
      lastName' w in
  r = Return ()
  ∧ trace w' =
      trace w ++ [GetMe accessToken'; PostRefresh rt; GetMe t;
                  RouterPush "/chat"]
  ∧ accessToken (session w') = access_token data
  ∧ refreshToken (session w') = refresh_token data
  ∧ cookies w' !! "accessToken" = Some t
  ∧ role (session w') = Some (default "user" (truthy (me_role me)))
  ∧ isAuthenticated (session w') = true.
Proof.
  intros Hun Hrt Hreply Ht Hme. destruct w as [[] c t0]. unfold login. exec.
  destruct (me_endpoint env accessToken') as [d | status |] eqn:Hme0;
    [discriminate | | discriminate].
  rewrite Hun. exec. rewrite (refreshAccessToken_ok _ _ _ _ _ Hrt Hreply).
  rewrite Ht. exec. rewrite Hme. unfold set_role_of. exec.
  repeat split.
  - now rewrite <- !app_assoc.
  - rewrite lookup_insert_ne by discriminate. rewrite lookup_insert_eq.
    destruct (access_token data) as [a |]; [| discriminate]. cbn in Ht |- *.
    destruct (QueryLimit.truthy a); congruence.
Qed.

Lemma login_refreshes_with_token_of_render_witness :
  let '(r, w') :=
    login server2 (render_of (Some "expired") (Some "good-refresh"))
      "stale" "unused-refresh" "a@b.in" "A" "B" (world_of logged_out ∅) in
  r = Return ()
  ∧ trace w' = [GetMe "stale"; PostRefresh "good-refresh"; GetMe "valid";
                RouterPush "/chat"]
  ∧ accessToken (session w') = Some "valid"
  ∧ refreshToken (session w') = Some "next-refresh"
  ∧ cookies w' !! "accessToken" = Some "valid"
  ∧ role (session w') = Some "admin"
  ∧ isAuthenticated (session w') = true.
Proof.
  apply (login_refreshes_with_token_of_render server2
    (render_of (Some "expired") (Some "good-refresh")) (world_of logged_out ∅)
    "stale" "unused-refresh" "a@b.in" "A" "B" "good-refresh" "valid"
    (mkRefreshData (Some "valid") (Some "next-refresh"))
    (mkMeData (Some "admin"))); reflexivity.
Defined.

(** X20: the cookies [login] writes bring the session back: when the
    role lookup succeeds and the access token, the refresh token and the
    email are not empty, [checkAuthStatus] run on a page loaded afresh
    (empty state, the cookies [login] left) ends with the same tokens,
    email, role and [isAdmin] as [login] did, and with the first and
    last name too unless they are empty (an empty name comes back as
    [null]). *)
Theorem login_survives_reload
    (env : Env) (render render' : Session) (w : World)
    (accessToken' refreshToken' email' firstName' lastName' : string)
    (me : MeData) :
  truthy (Some accessToken') = Some accessToken' →
  truthy (Some refreshToken') = Some refreshToken' →
  truthy (Some email') = Some email' →
  me_endpoint env accessToken' = Ok me →
  let w1 := snd (login env render accessToken' refreshToken' email'
                   firstName' lastName' w) in
  let w2 := snd (checkAuthStatus env render'
                   (mkWorld logged_out (cookies w1) [])) in
  session w1 =
    mkSession true (Some email') (Some firstName') (Some lastName')
      (Some (default "user" (truthy (me_role me))))
      (bool_decide (default "user" (truthy (me_role me)) = "admin"))
      (Some accessToken') (Some refreshToken')
  ∧ session w2 =
      mkSession true (Some email') (truthy (Some firstName'))
        (truthy (Some lastName')) (role (session w1)) (isAdmin (session w1))
        (Some accessToken') (Some refreshToken')
  ∧ cookies w2 = cookies w1.
Proof.
  intros Hat Hrt Hem Hme. destruct w as [[] c t].
  unfold login, checkAuthStatus. exec_all. rewrite Hme. exec_all.
  cbn [default from_option id].
  match goal with |- context [mkWorld _ ?m _] =>
    match m with <[_ := _]> _ => set (jar := m) end end.
  assert (Hjar : jar !! "accessToken" = Some accessToken'
                 ∧ jar !! "refreshToken" = Some refreshToken'
                 ∧ jar !! "email" = Some email'
                 ∧ jar !! "firstName" = Some firstName'
                 ∧ jar !! "lastName" = Some lastName').
  { subst jar. repeat split;
      repeat (rewrite lookup_insert_ne by discriminate);
      apply lookup_insert_eq. }
  destruct Hjar as (H1 & H2 & H3 & H4 & H5).
  rewrite H1, H2, H3, Hat, Hrt, Hem. exec_all.
  rewrite ?H4, ?H5, Hme. exec_all.
  now destruct (includes authRoutes (pathname env)).
Qed.

Lemma login_survives_reload_witness :
  let w1 := snd (login server2 logged_out "valid" "good-refresh" "a@b.in"
                   "A" "" (world_of logged_out ∅)) in
  let w2 := snd (checkAuthStatus server2 logged_out
                   (mkWorld logged_out (cookies w1) [])) in
  session w1 =
    mkSession true (Some "a@b.in") (Some "A") (Some "") (Some "admin") true
      (Some "valid") (Some "good-refresh")
  ∧ session w2 =
      mkSession true (Some "a@b.in") (Some "A") None (role (session w1))
        (isAdmin (session w1)) (Some "valid") (Some "good-refresh")
  ∧ cookies w2 = cookies w1.
Proof.
  exact (login_survives_reload server2 logged_out logged_out
    (world_of logged_out ∅) "valid" "good-refresh" "a@b.in" "A" ""
    (mkMeData (Some "admin")) eq_refl eq_refl eq_refl eq_refl).
Defined.

End AuthMore.

Module PageMore.
Import Auth AuthFacts AuthMore ChatMessages PageRequests Examples PageExamples.

Ltac run_page_monad :=
  unfold run_page, mbind, P_bind, mret, P_ret, try_catchP, try_finally,
    throwP, call, lift.

(** [axiosInstance.get] in terms of the interceptor. *)
Lemma axios_get_run {C A : Type} defaults env render
    (server : Config → Reply A)
    url (calls : list C) w :
  axios_get defaults env render server url calls w
  = match requestInterceptor env render (get_config defaults url) w with
    | (Return config, w1) =>
        (Return match server config with
                | Ok data => inl data
                | r => inr (error_of_reply r)
                end,
         calls,
         mkWorld (session w1) (cookies w1) (trace w1 ++ [Dispatch config]))
    | (Raise e, w1) => (Return (inr (error_of_exn e)), calls, w1)
    end.
Proof.
  unfold axios_get. run_page_monad. unfold emit.
  destruct (requestInterceptor env render (get_config defaults url) w)
    as [[config | e] w1]; [| reflexivity].
  now destruct (server config).
Qed.


(** X22: a page of a guest asks for no list of conversations and makes
    no conversation: [fetchConversations] does nothing at all, and
    [handleNewChat] only sets the conversation to "guest"; neither sends
    a request nor touches the session. *)
Theorem guest_asks_for_no_conversation
    (defaults : gmap string string)
    (env : Env) (api : ChatApi) (render : Session) (w : World) :
  isAuthenticated render = false →
  run_page (fetchConversations defaults env api render) w = (Return (), [], w)
  ∧ run_page (handleNewChat defaults env api render) w
    = (Return (), [SetConversationId "guest"], w).
Proof.
  intros Hguest. unfold fetchConversations, handleNewChat. rewrite Hguest.
  now split.
Qed.

Lemma guest_asks_for_no_conversation_witness :
  run_page (fetchConversations axios_defaults server2 chat_api logged_out)
    (world_of logged_out ∅)
  = (Return (), [], world_of logged_out ∅)
  ∧ run_page (handleNewChat axios_defaults server2 chat_api logged_out)
      (world_of logged_out ∅)
    = (Return (), [SetConversationId "guest"], world_of logged_out ∅).
Proof.
  apply (guest_asks_for_no_conversation axios_defaults server2 chat_api logged_out
           (world_of logged_out ∅)). reflexivity.
Defined.

Lemma requestInterceptor_malformed env render config w token :
  truthy (accessToken render) = Some token →
  jwtDecode env token = None →
  requestInterceptor env render config w
  = (Raise (Cancel "Invalid token. Please log in again."),
     mkWorld logged_out (remove_cookies (cookies w))
       (trace w ++ [RouterPush "/signin"])).
Proof.
  intros Htok Hdec. unfold requestInterceptor. rewrite Htok. run_monad.
  now rewrite Hdec, logout_run.
Qed.

(** X23: on the chat page of an authenticated user whose access token
    does not decode, each of the three requests of the page is cancelled
    before it is sent and logs the user out; [fetchMessages] tells the
    user with a toast, [fetchConversations] and [handleNewChat] say
    nothing and change nothing on the page. *)
Theorem malformed_token_on_chat_page
    (defaults : gmap string string)
    (env : Env) (api : ChatApi) (render : Session) (w : World)
    (token cid : string) :
  isAuthenticated render = true →
  truthy (accessToken render) = Some token →
  jwtDecode env token = None →
  truthy (Some cid) = Some cid →
  let w' := mkWorld logged_out (remove_cookies (cookies w))
              (trace w ++ [RouterPush "/signin"]) in
  run_page (fetchMessages defaults env api render (Some cid)) w
  = (Return (),
     [PageToast "Failed to fetch conversation: Invalid token. Please log in again."],
     w')
  ∧ run_page (fetchConversations defaults env api render) w = (Return (), [], w')
  ∧ run_page (handleNewChat defaults env api render) w = (Return (), [], w').
Proof.
  intros Hauth Htok Hdec Hcid w'.
  unfold fetchMessages, fetchConversations, handleNewChat, run_page.
  rewrite Hauth, Hcid. cbn [negb]. unfold mbind, P_bind.
  rewrite !axios_get_run,
    !(requestInterceptor_malformed _ _ _ _ _ Htok Hdec).
  now repeat split.
Qed.

Lemma malformed_token_on_chat_page_witness :
  let render := render_of (Some "garbage") (Some "good-refresh") in
  let w := world_of render ∅ in
  let w' := mkWorld logged_out ∅ [RouterPush "/signin"] in
  run_page (fetchMessages axios_defaults server2 chat_api render (Some "c1")) w
  = (Return (),
     [PageToast "Failed to fetch conversation: Invalid token. Please log in again."],
     w')
  ∧ run_page (fetchConversations axios_defaults server2 chat_api render) w
    = (Return (), [], w')
  ∧ run_page (handleNewChat axios_defaults server2 chat_api render) w = (Return (), [], w').
Proof.
  pose proof (malformed_token_on_chat_page axios_defaults server2 chat_api
    (render_of (Some "garbage") (Some "good-refresh"))
    (world_of (render_of (Some "garbage") (Some "good-refresh")) ∅)
    "garbage" "c1" eq_refl eq_refl eq_refl eq_refl) as H.
  vm_compute in H. vm_compute. exact H.
Defined.

End PageMore.

Module DashboardMore.
Import Auth AuthFacts AuthMore ChatMessages PageRequests Examples PageExamples.
Import PageMore.



(** With an expired access token in the render and a refresh that is
    answered with a new token, the interceptor posts the refresh token
    of the render and returns the configuration with the new token as
    its bearer. *)
Lemma requestInterceptor_refreshed env render config w token payload rt
    data t :
  truthy (accessToken render) = Some token →
  jwtDecode env token = Some payload →
  expired payload (currentTime env) = true →
  truthy (refreshToken render) = Some rt →
  refresh_endpoint env rt = Ok data →
  truthy (access_token data) = Some t →
  ∃ w1,
    requestInterceptor env render config w
    = (Return (set_header config "Authorization" ("Bearer " +:+ t)), w1)
    ∧ trace w1 = trace w ++ [PostRefresh rt]
    ∧ accessToken (session w1) = access_token data
    ∧ refreshToken (session w1) = refresh_token data.
Proof.
  intros Htok Hdec Hexp Hrt Hok Ht. unfold requestInterceptor.
  rewrite Htok. run_monad. rewrite Hdec, Hexp.
  rewrite (refreshAccessToken_ok _ _ _ _ _ Hrt Hok), Ht.
  eexists. split; [reflexivity |]. now cbn.
Qed.

(** X25: the three requests of one [fetchData] go through the same
    interceptor, which keeps the tokens of its render: when the
    interceptor takes the access token of the render as expired, each
    request posts the refresh token of the render again before it is
    sent, also after the first refresh has replaced both tokens.  With
    the refresh answered with a token and a server that answers every
    request bearing that token, this is three refresh exchanges for one
    load of the dashboard, and each of the three requests goes out to
    its address with the [Authorization] header "Bearer " followed by
    the new token, the [Content-Type] of the instance and the other
    headers as axios gave them. *)
Theorem fetchData_refreshes_for_each_request
    (defaults : gmap string string)
    (env : Env) (render : Session) (server : Config → Reply string)
    (w : World) (token rt t : string) (payload : JwtPayload)
    (data : RefreshData) (data_of : string → string) :
  truthy (accessToken render) = Some token →
  jwtDecode env token = Some payload →
  expired payload (currentTime env) = true →
  truthy (refreshToken render) = Some rt →
  refresh_endpoint env rt = Ok data →
  truthy (access_token data) = Some t →
  (∀ config, headers config !! "Authorization" = Some ("Bearer " +:+ t) →
             server config = Ok (data_of (url config))) →
  let '(r, calls, w') := run_page (fetchData defaults env render server) w in
  r = Return ()
  ∧ calls = [SetLoading true; SetStats (data_of stats_url);
             SetHealth (data_of health_url);
             SetTemplates (data_of templates_url); SetLoading false]
  ∧ (∃ c1 c2 c3,
       trace w' = trace w ++ [PostRefresh rt; Dispatch c1;
                              PostRefresh rt; Dispatch c2;
                              PostRefresh rt; Dispatch c3]
       ∧ url <$> [c1; c2; c3] = dashboard_urls
       ∧ Forall (λ c, headers c !! "Authorization" = Some ("Bearer " +:+ t)
                      ∧ headers c !! "Content-Type" = Some "application/json"
                      ∧ ∀ k, k ≠ "Authorization" → k ≠ "Content-Type" →
                             headers c !! k = defaults !! k)
           [c1; c2; c3])
  ∧ accessToken (session w') = access_token data
  ∧ refreshToken (session w') = refresh_token data.
Proof.
  intros Htok Hdec Hexp Hrt Hok Ht Hserver.
  set (bearer := λ url0,
         set_header (get_config defaults url0) "Authorization"
           ("Bearer " +:+ t)).
  assert (Hbearer : ∀ url0,
            server (bearer url0) = Ok (data_of url0)
            ∧ url (bearer url0) = url0
            ∧ headers (bearer url0) !! "Authorization"
              = Some ("Bearer " +:+ t)
            ∧ headers (bearer url0) !! "Content-Type"
              = Some "application/json"
            ∧ ∀ k, k ≠ "Authorization" → k ≠ "Content-Type" →
                   headers (bearer url0) !! k = defaults !! k).
  { intros url0.
    destruct (set_header_bearer (get_config defaults url0) t)
      as (Hu & Ha & Hk). fold (bearer url0) in Hu, Ha, Hk.
    split; [now rewrite (Hserver _ Ha), Hu |].
    split; [exact Hu |]. split; [exact Ha |].
    split.
    - rewrite Hk by discriminate. apply lookup_insert_eq.
    - intros k HkA HkC. rewrite (Hk k HkA). cbn [get_config headers].
      now apply lookup_insert_ne. }
  unfold fetchData, run_page.
  lazy beta iota zeta delta [try_finally try_catchP mbind P_bind call
                             await_get mret P_ret throwP].
  rewrite axios_get_run.
  destruct (requestInterceptor_refreshed env render
              (get_config defaults stats_url)
              w _ _ _ _ _ Htok Hdec Hexp Hrt Hok Ht)
    as (w1 & -> & Ht1 & _).
  fold (bearer stats_url). rewrite (proj1 (Hbearer stats_url)).
  lazy beta iota.
  rewrite axios_get_run.
  destruct (requestInterceptor_refreshed env render
              (get_config defaults health_url)
              (mkWorld (session w1) (cookies w1)
                 (trace w1 ++ [Dispatch (bearer stats_url)]))
              _ _ _ _ _ Htok Hdec Hexp Hrt Hok Ht)
    as (w2 & -> & Ht2 & _).
  fold (bearer health_url). rewrite (proj1 (Hbearer health_url)).
  lazy beta iota.
  rewrite axios_get_run.
  destruct (requestInterceptor_refreshed env render
              (get_config defaults templates_url)
              (mkWorld (session w2) (cookies w2)
                 (trace w2 ++ [Dispatch (bearer health_url)]))
              _ _ _ _ _ Htok Hdec Hexp Hrt Hok Ht)
    as (w3 & -> & Ht3 & Ha3 & Hr3).
  fold (bearer templates_url). rewrite (proj1 (Hbearer templates_url)).
  lazy beta iota.
  cbn [session trace] in *.
  split; [reflexivity |]. split; [reflexivity |].
  split; [| split; assumption].
  exists (bearer stats_url), (bearer health_url), (bearer templates_url).
  split; [rewrite Ht3, Ht2, Ht1, <- !app_assoc; reflexivity |].
  split; [reflexivity |].
  repeat constructor; apply Hbearer.
Qed.

Lemma fetchData_refreshes_for_each_request_witness :
  let render := render_of (Some "expired") (Some "good-refresh") in
  let '(r, calls, w') :=
    run_page (fetchData axios_defaults server render dashboard_up)
      (world_of render ∅) in
  r = Return ()
  ∧ calls = [SetLoading true; SetStats ("data of " +:+ stats_url);
             SetHealth ("data of " +:+ health_url);
             SetTemplates ("data of " +:+ templates_url); SetLoading false]
  ∧ (∃ c1 c2 c3,
       trace w' = [PostRefresh "good-refresh"; Dispatch c1;
                   PostRefresh "good-refresh"; Dispatch c2;
                   PostRefresh "good-refresh"; Dispatch c3]
       ∧ url <$> [c1; c2; c3] = dashboard_urls
       ∧ Forall (λ c, headers c !! "Authorization" = Some "Bearer valid"
                      ∧ headers c !! "Content-Type" = Some "application/json"
                      ∧ ∀ k, k ≠ "Authorization" → k ≠ "Content-Type" →
                             headers c !! k = axios_defaults !! k)
           [c1; c2; c3])
  ∧ accessToken (session w') = Some "valid"
  ∧ refreshToken (session w') = Some "next-refresh".
Proof.
  pose proof (fetchData_refreshes_for_each_request axios_defaults server
    (render_of (Some "expired") (Some "good-refresh")) dashboard_up
    (world_of (render_of (Some "expired") (Some "good-refresh")) ∅)
    "expired" "good-refresh" "valid" (mkJwtPayload (Some (Double.of_Z 1)))
    (mkRefreshData (Some "valid") (Some "next-refresh"))
    (λ url0, "data of " +:+ url0)
    eq_refl eq_refl eq_refl eq_refl eq_refl eq_refl (λ _ _, eq_refl))
    as H.
  vm_compute in H. vm_compute. exact H.
Defined.

End DashboardMore.
